(** * A shallow embedding of [gif_maker.py]: the batch image-to-GIF pipeline.

    The file models [GIFMaker.create_gif_from_images], the file filter,
    the two sort modes, the memory budget, the per-file normaliser and the
    batch loop, the encoder call, and the command-line [main] that drives
    them.  The world outside the program ([os.listdir], PIL decoding,
    [psutil], the GIF writer) is an explicit environment record; the
    program's I/O is a trace produced by a small state/error monad.

    Characters are Python code points restricted to the Latin-1 range
    (0..255), one [ascii] value each (its 8 bits are the code point);
    [str.lower], [str.isdigit] and [int] are written out for that range. *)

From Stdlib Require Import List Bool Arith ZArith Lia.
From Stdlib Require Import Ascii String.
From Stdlib Require Import QArith Qround.
From Stdlib Require Import Sorted Permutation.
From Stdlib Require SpecFloat.
Import ListNotations.

Local Open Scope nat_scope.
Local Open Scope list_scope.

(* ================================================================== *)
(** ** Python strings over Latin-1 *)

Module PyStr.

Definition pystr := list ascii.

(** Literal helper: a Rocq string literal as a Python string. *)
Definition lit (s : string) : pystr := list_ascii_of_string s.

Definition code (c : ascii) : nat := nat_of_ascii c.

Definition chr (n : nat) : ascii := ascii_of_nat n.

(** [str.lower] on one Latin-1 code point: [A-Z] and [À-Þ] except the
    multiplication sign [×] (215) map 32 code points up. *)
Definition py_lower_char (c : ascii) : ascii :=
  let n := code c in
  if ((65 <=? n) && (n <=? 90)) || ((192 <=? n) && (n <=? 222) && negb (n =? 215))
  then chr (n + 32) else c.

Definition py_lower (s : pystr) : pystr := map py_lower_char s.

(** [str.isdigit] on Latin-1: the ten ASCII digits and the superscripts
    [²] (178), [³] (179) and [¹] (185). *)
Definition py_isdigit (c : ascii) : bool :=
  let n := code c in
  ((48 <=? n) && (n <=? 57)) || (n =? 178) || (n =? 179) || (n =? 185).

(** The decimal value [int] gives a character: only decimal digits
    (Unicode category Nd) have one; in Latin-1 these are [0-9]. *)
Definition py_decimal (c : ascii) : option Z :=
  let n := code c in
  if (48 <=? n) && (n <=? 57) then Some (Z.of_nat (n - 48)) else None.

(** [int(s)] on a string made only of [isdigit] characters: it raises
    ([None]) on the empty string and on any character without a decimal
    value. *)
Fixpoint py_int_acc (acc : Z) (s : pystr) : option Z :=
  match s with
  | [] => Some acc
  | c :: s' =>
      match py_decimal c with
      | Some d => py_int_acc (acc * 10 + d) s'
      | None => None
      end
  end.

Definition py_int (s : pystr) : option Z :=
  match s with
  | [] => None
  | _ => py_int_acc 0 s
  end.

Fixpoint str_eqb (a b : pystr) : bool :=
  match a, b with
  | [], [] => true
  | x :: a', y :: b' => Ascii.eqb x y && str_eqb a' b'
  | _, _ => false
  end.

(** [a < b] on Python strings: code-point lexicographic order. *)
Fixpoint str_ltb (a b : pystr) : bool :=
  match a, b with
  | [], [] => false
  | [], _ :: _ => true
  | _ :: _, [] => false
  | x :: a', y :: b' =>
      if code x <? code y then true
      else if code y <? code x then false
      else str_ltb a' b'
  end.

(** [s.endswith(suf)]. *)
Definition endswith (s suf : pystr) : bool :=
  (List.length suf <=? List.length s) && str_eqb (skipn (List.length s - List.length suf) s) suf.

Definition slash : ascii := "/"%char.

(** [os.path.basename] (posix): the part after the last ['/']. *)
Fixpoint basename_acc (cur : pystr) (p : pystr) : pystr :=
  match p with
  | [] => rev cur
  | c :: p' => if Ascii.eqb c slash then basename_acc [] p' else basename_acc (c :: cur) p'
  end.

Definition basename (p : pystr) : pystr := basename_acc [] p.

(** [os.path.join(a, b)] (posix, two arguments). *)
Definition path_join (a b : pystr) : pystr :=
  match b with
  | c :: _ => if Ascii.eqb c slash then b else
      match rev a with
      | [] => b
      | l :: _ => if Ascii.eqb l slash then a ++ b else a ++ [slash] ++ b
      end
  | [] => match rev a with
          | [] => b
          | l :: _ => if Ascii.eqb l slash then a ++ b else a ++ [slash] ++ b
          end
  end.

(** The extension of a file name: the suffix that starts at its last
    ['.'], dot included; [None] when the name has no ['.']. *)
Fixpoint last_ext (s : pystr) : option pystr :=
  match s with
  | [] => None
  | c :: s' =>
      match last_ext s' with
      | Some e => Some e
      | None => if Ascii.eqb c "."%char then Some s else None
      end
  end.

End PyStr.

Import PyStr.

(* ================================================================== *)
(** ** Format filter: [any(file.lower().endswith(fmt) for fmt in self.supported_formats)] *)

Module Filter.

(** [self.supported_formats]; the set's iteration order does not matter
    to [any]. *)
Definition supported_formats : list pystr :=
  map lit [".jpg"; ".jpeg"; ".png"; ".bmp"; ".tiff"; ".webp"]%string.

Definition is_supported (file : pystr) : bool :=
  existsb (fun fmt => endswith (py_lower file) fmt) supported_formats.

End Filter.

(* ================================================================== *)
(** ** Frame orderer: [image_files.sort(key=...)] and [image_files.sort()] *)

Module Order.

(** [list.sort] is a stable sort that compares with [<] only.  It is
    modelled by insertion on decorated pairs, as CPython decorates with
    the keys first: an element goes before the first element whose key
    is not strictly smaller than its own, so equal keys keep input order. *)
Section StableSort.
Context {K A : Type} (lt : K -> K -> bool).

Fixpoint insert_by (x : K * A) (ys : list (K * A)) : list (K * A) :=
  match ys with
  | [] => [x]
  | y :: ys' => if lt (fst y) (fst x) then y :: insert_by x ys' else x :: ys
  end.

Fixpoint sort_by (xs : list (K * A)) : list (K * A) :=
  match xs with
  | [] => []
  | x :: xs' => insert_by x (sort_by xs')
  end.
End StableSort.

(** Python's key: [int(''.join(filter(str.isdigit, os.path.basename(x))) or 0)];
    [None] when [int] raises. *)
Definition numeric_key (p : pystr) : option Z :=
  match filter py_isdigit (basename p) with
  | [] => Some 0%Z
  | ds => py_int ds
  end.

(** CPython computes every key before sorting; one raising key aborts the sort. *)
Fixpoint keys_of (f : pystr -> option Z) (xs : list pystr) : option (list (Z * pystr)) :=
  match xs with
  | [] => Some []
  | x :: xs' =>
      match f x, keys_of f xs' with
      | Some k, Some ks => Some ((k, x) :: ks)
      | _, _ => None
      end
  end.

(** The sort step of [create_gif_from_images]; [None] when the sort raises. *)
Definition sort_files (sort_numerically : bool) (files : list pystr) : option (list pystr) :=
  if sort_numerically then
    match keys_of numeric_key files with
    | Some kx => Some (map snd (sort_by Z.ltb kx))
    | None => None
    end
  else Some (map snd (sort_by str_ltb (map (fun f => (f, f)) files))).

(** Order and grouping of decorated pairs by key, used to state what the
    numeric sort achieves. *)
Definition key_le {A : Type} (x y : Z * A) : Prop := (fst x <= fst y)%Z.

Definition with_key {A : Type} (k : Z) (x : Z * A) : bool := Z.eqb (fst x) k.

End Order.

(* ================================================================== *)
(** ** The pipeline: [GIFMaker.create_gif_from_images] *)

Module Pipeline.

Definition dims := (Z * Z)%type.

(** A frame handed to the encoder: the image converted to mode ['P']
    (adaptive 256-colour palette), identified by the file it came from
    and by its size. *)
Record frame := mk_frame { fr_src : pystr; fr_size : dims }.

(** The world the function runs in. *)
Record Env := mk_env {
  psutil_ok : bool;                         (* [import psutil] succeeds *)
  available : Z;                            (* [psutil.virtual_memory().available] *)
  listdir : pystr -> option (list pystr);   (* [os.listdir]; [None]: it raises *)
  open_image : pystr -> option dims;        (* [Image.open] and [convert('RGB')]; [None]: raises *)
  resize_fails : pystr -> bool;             (* [img.resize(base_size, LANCZOS)] raises *)
  quantize_fails : pystr -> bool;           (* [img.convert('P', ...)] raises *)
  mem_percent : nat -> Z;                   (* [psutil.virtual_memory().percent] sampled at index [i] *)
  save_ok : bool                            (* [images[0].save(...)] succeeds *)
}.

(** The keyword arguments of [create_gif_from_images]. *)
Record Args := mk_args {
  image_folder : pystr;
  output_path : pystr;
  duration : Z;
  loop : Z;
  optimize : bool;
  quality : Z;
  sort_numerically : bool;
  max_frames : option Z
}.

(** Observable I/O of one call. *)
Inductive event :=
  | EvMemInfo                                (* [psutil.virtual_memory()] *)
  | EvListdir (folder : pystr)               (* [os.listdir(image_folder)] *)
  | EvOpen (path : pystr)                    (* [Image.open(img_path)] *)
  | EvGc                                     (* [gc.collect()] *)
  | EvMemPercent (i : nat)                   (* [psutil.virtual_memory().percent] *)
  | EvSave (out : pystr) (frames : list frame). (* [images[0].save(out, append_images=images[1:])] *)

(** The exceptions the body can raise. *)
Inductive error :=
  | ImportError | ListdirError | NoSupportedFiles | SortError
  | DecodeError | ResizeError | QuantizeError | NoFramesProcessed | EncodeError.

Inductive result (A : Type) := Ok (a : A) | Err (e : error).
Arguments Ok {A} a.
Arguments Err {A} e.

(** The function's locals that survive an exception inside the per-file
    [try], and the I/O trace. *)
Record St := mk_st {
  trace : list event;
  images : list frame;
  base_size : option dims;
  total_processed : nat
}.

Definition init_st : St := mk_st [] [] None 0.

(** A state and exception monad over [St]. *)
Definition M (A : Type) := St -> St * result A.

Definition ret {A} (a : A) : M A := fun s => (s, Ok a).
Definition bind {A B} (m : M A) (k : A -> M B) : M B :=
  fun s => match m s with
           | (s', Ok a) => k a s'
           | (s', Err e) => (s', Err e)
           end.
Definition raise {A} (e : error) : M A := fun s => (s, Err e).
(** [try: m except Exception: h]: the state reached when [m] raised is kept. *)
Definition catch {A} (m : M A) (h : error -> M A) : M A :=
  fun s => match m s with
           | (s', Err e) => h e s'
           | r => r
           end.

Notation "x <- m ;; k" := (bind m (fun x => k)) (at level 61, m at next level, right associativity).
Notation "m ;; k" := (bind m (fun _ => k)) (at level 61, right associativity).

Definition emit (ev : event) : M unit :=
  fun s => (mk_st (trace s ++ [ev]) (images s) (base_size s) (total_processed s), Ok tt).
Definition get_base : M (option dims) := fun s => (s, Ok (base_size s)).
Definition set_base (b : option dims) : M unit :=
  fun s => (mk_st (trace s) (images s) b (total_processed s), Ok tt).
Definition get_images : M (list frame) := fun s => (s, Ok (images s)).
(** [images.append(img)]. *)
Definition append_image (f : frame) : M unit :=
  fun s => (mk_st (trace s) (images s ++ [f]) (base_size s) (total_processed s), Ok tt).
Definition incr_processed : M unit :=
  fun s => (mk_st (trace s) (images s) (base_size s) (S (total_processed s)), Ok tt).
Definition lift_opt {A} (e : error) (o : option A) : M A :=
  match o with Some a => ret a | None => raise e end.

(** *** Memory budget (lines 47-52) *)

Definition estimated_memory_per_frame : Z := 2 * 1024 * 1024.

(** [int(available_memory * 0.5 / estimated_memory_per_frame)]; the float
    arithmetic is exact for byte counts below 2^53, and [int] truncates
    towards zero, which is [floor] on these non-negative values. *)
Definition calculated_max_frames (available_memory : Z) : Z :=
  Qfloor ((inject_Z available_memory * (1 # 2)) / inject_Z estimated_memory_per_frame)%Q.

Definition effective_max_frames (env : Env) (a : Args) : Z :=
  match max_frames a with
  | Some m => m
  | None => Z.min (calculated_max_frames (available env)) 10000
  end.

(** [image_files[:m]] with Python's slice semantics (a negative bound
    counts from the end). *)
Definition py_slice_to {A} (m : Z) (l : list A) : list A :=
  if (0 <=? m)%Z then firstn (Z.to_nat m) l
  else firstn (Z.to_nat (Z.of_nat (List.length l) + m)) l.

(** Lines 72-75. *)
Definition truncate {A} (m : Z) (l : list A) : list A :=
  if (Z.of_nat (List.length l) >? m)%Z then py_slice_to m l else l.

(** *** Frame normaliser (lines 89-110) *)

Definition max_dimension : Z := 1920.

(** Python's [float]: IEEE 754 binary64, as specified by the Standard
    Library's [SpecFloat] (53-bit significand, round to nearest even). *)
Definition binary64_prec : Z := 53.
Definition binary64_emax : Z := 1024.

(** [float(n)] for an int [n], rounded to nearest even. *)
Definition py_float (n : Z) : SpecFloat.spec_float :=
  SpecFloat.binary_normalize binary64_prec binary64_emax n 0 false.

(** [a / b] on two ints.  For operands of magnitude at most 2^53 (image
    sizes are C ints) CPython converts both to float exactly and divides,
    one correctly rounded binary64 division. *)
Definition py_truediv (a b : Z) : SpecFloat.spec_float :=
  SpecFloat.SFdiv binary64_prec binary64_emax (py_float a) (py_float b).

(** [n * x] for an int [n] and a float [x]: [float(n) * x], rounded. *)
Definition py_int_mul_float (n : Z) (x : SpecFloat.spec_float) : SpecFloat.spec_float :=
  SpecFloat.SFmul binary64_prec binary64_emax (py_float n) x.

(** [min(a, b)] returns [a] unless [b < a]. *)
Definition py_min_float (a b : SpecFloat.spec_float) : SpecFloat.spec_float :=
  if SpecFloat.SFltb b a then b else a.

(** [int(x)] on a finite float: truncation towards zero of [m * 2^e].
    ([int] raises on infinities and NaN, which the positive image sizes
    below never produce; they map to 0 here.) *)
Definition py_int_of_float (x : SpecFloat.spec_float) : Z :=
  match x with
  | SpecFloat.S754_finite s m e =>
      SpecFloat.cond_Zopp s
        (if (0 <=? e)%Z then Z.shiftl (Zpos m) e else Z.shiftr (Zpos m) (- e))
  | _ => 0%Z
  end.

(** Lines 96-103: [base_size] from the first decoded image, with the
    source's float arithmetic: [ratio = min(1920/w, 1920/h)], then
    [(int(w*ratio), int(h*ratio))]. *)
Definition first_base (sz : dims) : dims :=
  let (w, h) := sz in
  if (w >? max_dimension)%Z || (h >? max_dimension)%Z then
    let ratio := py_min_float (py_truediv max_dimension w) (py_truediv max_dimension h) in
    (py_int_of_float (py_int_mul_float w ratio), py_int_of_float (py_int_mul_float h ratio))
  else sz.

Definition batch_size : nat := 100.

Inductive ctl := Continue | Break.

(** The body of the per-file [try] (lines 89-122), for index [i]. *)
Definition file_step (env : Env) (i : nat) (p : pystr) : M ctl :=
  emit (EvOpen p) ;;
  sz <- lift_opt DecodeError (open_image env p) ;;
  b <- get_base ;;
  size <- (match b with
           | None => set_base (Some (first_base sz)) ;; ret sz
           | Some bs => if resize_fails env p then raise ResizeError else ret bs
           end) ;;
  (if quantize_fails env p then raise QuantizeError else ret tt) ;;
  append_image (mk_frame p size) ;;
  incr_processed ;;
  if Nat.eqb (Nat.modulo (S i) batch_size) 0 then
    emit EvGc ;;
    emit (EvMemPercent i) ;;
    if (mem_percent env i >? 80)%Z then
      imgs <- get_images ;;
      (if 0 <? List.length imgs then ret Break else ret Continue)
    else ret Continue
  else ret Continue.

(** Lines 87-126: [for i, img_path in enumerate(image_files)]; an
    exception in the body is printed and the loop continues. *)
Fixpoint process_files (env : Env) (i : nat) (files : list pystr) : M unit :=
  match files with
  | [] => ret tt
  | p :: rest =>
      c <- catch (file_step env i p) (fun _ => ret Continue) ;;
      match c with
      | Break => ret tt
      | Continue => process_files env (S i) rest
      end
  end.

(** Lines 58-75: the file list handed to the batch loop. *)
Definition select_files (env : Env) (a : Args) (mf : Z) : M (list pystr) :=
  emit (EvListdir (image_folder a)) ;;
  names <- lift_opt ListdirError (listdir env (image_folder a)) ;;
  let image_files := map (path_join (image_folder a)) (filter Filter.is_supported names) in
  match image_files with
  | [] => raise NoSupportedFiles
  | _ =>
      sorted <- lift_opt SortError (Order.sort_files (sort_numerically a) image_files) ;;
      ret (truncate mf sorted)
  end.

(** Lines 132-139: [images[0].save(output_path, save_all=True,
    append_images=images[1:], ...)]. *)
Definition save_gif (env : Env) (a : Args) (first : frame) (rest : list frame) : M unit :=
  emit (EvSave (output_path a) (first :: rest)) ;;
  if save_ok env then ret tt else raise EncodeError.

(** The body of the outer [try] (lines 39-143). *)
Definition create_body (env : Env) (a : Args) : M unit :=
  (if psutil_ok env then ret tt else raise ImportError) ;;
  emit EvMemInfo ;;
  let mf := effective_max_frames env a in
  files <- select_files env a mf ;;
  process_files env 0 files ;;
  imgs <- get_images ;;
  match imgs with
  | [] => raise NoFramesProcessed
  | first :: rest => save_gif env a first rest
  end.

Definition run_create (env : Env) (a : Args) : St * result unit := create_body env a init_st.

(** [create_gif_from_images]: the outer [except Exception] turns every
    error into [False]. *)
Definition create_gif_from_images (env : Env) (a : Args) : bool :=
  match snd (run_create env a) with
  | Ok _ => true
  | Err _ => false
  end.

(** The frames passed to the encoder, when [save] was called. *)
Fixpoint saved_frames (tr : list event) : option (list frame) :=
  match tr with
  | [] => None
  | EvSave _ fs :: _ => Some fs
  | _ :: tr' => saved_frames tr'
  end.

Definition encoder_input (env : Env) (a : Args) : option (list frame) :=
  saved_frames (trace (fst (run_create env a))).

(** [l1] is obtained from [l2] by deleting elements. *)
Inductive sublist {A : Type} : list A -> list A -> Prop :=
  | sl_nil : sublist [] []
  | sl_skip x l1 l2 : sublist l1 l2 -> sublist l1 (x :: l2)
  | sl_keep x l1 l2 : sublist l1 l2 -> sublist (x :: l1) (x :: l2).

Definition is_save (ev : event) : bool :=
  match ev with EvSave _ _ => true | _ => false end.

(** Lines 39-75: everything before the batch loop. *)
Definition prepare (env : Env) (a : Args) : M (list pystr) :=
  (if psutil_ok env then ret tt else raise ImportError) ;;
  emit EvMemInfo ;;
  select_files env a (effective_max_frames env a).

(** After the loop: the emptiness check and the encoder call. *)
Definition finish (env : Env) (a : Args) (s1 : St) : St * result unit :=
  match images s1 with
  | [] => (s1, Err NoFramesProcessed)
  | first :: rest => save_gif env a first rest s1
  end.

End Pipeline.

(* ================================================================== *)
(** ** The command line: [main] (lines 338-368) *)

Module Cli.
Import Pipeline.

(** The namespace [parser.parse_args()] returns. *)
Record CliArgs := mk_cli {
  folder : pystr;
  output : pystr;                 (* [-o], default ["output.gif"] *)
  c_duration : Z;                 (* [-d], default 500 *)
  c_loop : Z;                     (* [-l], default 0 *)
  c_max : option Z;               (* [-m] *)
  no_optimize : bool;             (* [--no-optimize] *)
  no_sort : bool;                 (* [--no-sort] *)
  max_size : option Z             (* [--max-size] *)
}.

(** What [argparse] does with the command line: a namespace, or it exits
    by itself ([-h] prints help and exits 0, a usage error exits 2). *)
Inductive parse_outcome :=
  | Parsed (c : CliArgs)
  | HelpRequested
  | UsageError.

(** Lines 355-362: the call [main] makes. *)
Definition cli_call (c : CliArgs) : Args :=
  mk_args (folder c) (output c) (c_duration c) (c_loop c) (negb (no_optimize c))
          85 (negb (no_sort c)) None.

(** The exit status of [main] in command-line mode. *)
Definition cli_main (env : Env) (po : parse_outcome) : Z :=
  match po with
  | Parsed c => if create_gif_from_images env (cli_call c) then 0 else 1
  | HelpRequested => 0
  | UsageError => 2
  end.

End Cli.

(* ================================================================== *)
(** ** Concrete worlds *)

Module Worlds.
Import Pipeline Cli.

(** [n] files ["0.png"], ..., ["<n-1>.png"] in folder ["imgs"]. *)
Fixpoint digits_of_nat_acc (fuel n : nat) (acc : pystr) : pystr :=
  match fuel with
  | 0 => acc
  | S fuel' =>
      let acc' := chr (48 + Nat.modulo n 10)%nat :: acc in
      if (n <? 10)%nat then acc' else digits_of_nat_acc fuel' (Nat.div n 10) acc'
  end.

Definition nat_name (n : nat) : pystr := digits_of_nat_acc 10 n [] ++ lit ".png".

Definition png_names (n : nat) : list pystr := map nat_name (seq 0 n).

Definition folder : pystr := lit "imgs".

(** A world where every file of [names] decodes to [sz], memory is ample,
    and saving works. *)
Definition good_env (names : list pystr) (sz : pystr -> option dims) : Env :=
  mk_env true (8 * 1024 * 1024 * 1024) (fun _ => Some names) sz
         (fun _ => false) (fun _ => false) (fun _ => 40%Z) true.

Definition args_with (mf : option Z) (numeric : bool) : Args :=
  mk_args folder (lit "out.gif") 500 0 true 85 numeric mf.

(** Five files that all fail to decode. *)
Definition corrupt5_env : Env :=
  mk_env true (8 * 1024 * 1024 * 1024) (fun _ => Some (png_names 5)) (fun _ => None)
         (fun _ => false) (fun _ => false) (fun _ => 40%Z) true.

(** Three decodable files. *)
Definition three_env : Env := good_env (png_names 3) (fun _ => Some (640, 480)%Z).

Definition three_frames : list frame :=
  match encoder_input three_env (args_with None true) with Some fs => fs | None => [] end.

(** 1 MiB available, three supported files. *)
Definition low_env : Env :=
  mk_env true (1024 * 1024) (fun _ => Some (png_names 3)) (fun _ => Some (640, 480)%Z)
         (fun _ => false) (fun _ => false) (fun _ => 40%Z) true.

(** Three files; the first is 3840x2160, the others 800x600. *)
Definition big_first_env : Env :=
  good_env (png_names 3)
    (fun p => if str_eqb p (path_join folder (nat_name 0)) then Some (3840, 2160)%Z
              else Some (800, 600)%Z).

Definition ten_env : Env := good_env (png_names 10) (fun _ => Some (640, 480)%Z).

(** [gif_maker.py imgs -o out.gif -m 2]. *)
Definition cli_m2 : CliArgs := mk_cli folder (lit "out.gif") 500 0 (Some 2%Z) false false None.

Definition nofolder_env : Env :=
  mk_env true (8 * 1024 * 1024 * 1024) (fun _ => None) (fun _ => None)
         (fun _ => false) (fun _ => false) (fun _ => 40%Z) true.

Definition gc_passes (tr : list event) : nat :=
  List.length (filter (fun ev => match ev with EvGc => true | _ => false end) tr).

(** 101 files ["0.png"] .. ["100.png"]; the hundredth, ["99.png"], does
    not decode; memory stays at 90%. *)
Definition bad100_env : Env :=
  mk_env true (8 * 1024 * 1024 * 1024) (fun _ => Some (png_names 101))
         (fun p => if str_eqb p (path_join folder (nat_name 99)) then None else Some (640, 480)%Z)
         (fun _ => false) (fun _ => false) (fun _ => 90%Z) true.

(** ["a²1.png"]: the superscript two (code point 178) is an [isdigit]
    character without a decimal value. *)
Definition sup_name : pystr := lit "a" ++ [chr 178] ++ lit "1.png".

Definition sup_env : Env := good_env [sup_name; lit "b2.png"] (fun _ => Some (640, 480)%Z).

End Worlds.

(* ================================================================== *)
(** ** [config.py]: the settings dictionary *)

Module Config.

(** The values [DEFAULT_SETTINGS] holds, and [None]. *)
Inductive value :=
  | VStr (s : pystr)
  | VInt (z : Z)
  | VBool (b : bool)
  | VStrSet (l : list pystr)
  | VNone.

(** A Python dict with string keys, in insertion order; keys are unique. *)
Definition dict := list (pystr * value).

Fixpoint dict_get (d : dict) (k : pystr) : option value :=
  match d with
  | [] => None
  | (k', v) :: d' => if str_eqb k' k then Some v else dict_get d' k
  end.

(** [d[k] = v] for a key already present: the value is replaced in place. *)
Fixpoint dict_set (d : dict) (k : pystr) (v : value) : dict :=
  match d with
  | [] => []
  | (k', v') :: d' => if str_eqb k' k then (k', v) :: d' else (k', v') :: dict_set d' k v
  end.

Definition dict_mem (d : dict) (k : pystr) : bool :=
  match dict_get d k with Some _ => true | None => false end.

Definition DEFAULT_SETTINGS : dict :=
  [ (lit "output_filename", VStr (lit "animation.gif"));
    (lit "default_output_dir", VStr (lit "./output"));
    (lit "default_duration", VInt 500);
    (lit "default_loop", VInt 0);
    (lit "max_frames", VInt 2000);
    (lit "optimize_gif", VBool true);
    (lit "image_quality", VInt 85);
    (lit "max_width", VInt 1920);
    (lit "max_height", VInt 1080);
    (lit "sort_numerically", VBool true);
    (lit "case_sensitive_sort", VBool false);
    (lit "supported_formats", VStrSet (map lit [".jpg"; ".jpeg"; ".png"; ".bmp"; ".tiff"; ".webp"]%string));
    (lit "gui_theme", VStr (lit "default"));
    (lit "window_size", VStr (lit "600x500"));
    (lit "show_preview", VBool true);
    (lit "resize_large_images", VBool true);
    (lit "resize_method", VStr (lit "LANCZOS"));
    (lit "color_palette", VInt 256);
    (lit "log_level", VStr (lit "INFO"));
    (lit "save_log", VBool false);
    (lit "log_file", VStr (lit "gif_maker.log")) ]%Z.

(** [get_setting(key, default=None)]: [DEFAULT_SETTINGS.get(key, default)],
    reading the module's current dictionary [d]. *)
Definition get_setting (d : dict) (key : pystr) (default : value) : value :=
  match dict_get d key with Some v => v | None => default end.

(** [update_setting(key, value)]: the result and the dictionary after it. *)
Definition update_setting (d : dict) (key : pystr) (v : value) : bool * dict :=
  if dict_mem d key then (true, dict_set d key v) else (false, d).

(** A sequence of [update_setting] calls. *)
Fixpoint update_all (d : dict) (us : list (pystr * value)) : dict :=
  match us with
  | [] => d
  | (k, v) :: us' => update_all (snd (update_setting d k v)) us'
  end.

End Config.

(* ================================================================== *)
(** ** [GIFMaker.get_image_info] (lines 149-164) *)

Module Info.
Import Pipeline.

(** [s.rfind(c)]: the index of the last [c], [None] for [-1]. *)
Fixpoint rfind_acc (c : ascii) (s : pystr) (i : nat) (best : option nat) : option nat :=
  match s with
  | [] => best
  | x :: s' => rfind_acc c s' (S i) (if Ascii.eqb x c then Some i else best)
  end.

Definition rfind (c : ascii) (s : pystr) : option nat := rfind_acc c s 0 None.

Definition dot : ascii := "."%char.

(** [os.path.splitext] (posix [genericpath._splitext] with [sep='/'],
    [extsep='.']): the extension starts at the last dot after the last
    slash, unless only dots precede it in the base name. *)
Definition splitext (p : pystr) : pystr * pystr :=
  let sepIndex := match rfind slash p with Some i => Z.of_nat i | None => (-1)%Z end in
  match rfind dot p with
  | Some d =>
      if (sepIndex <? Z.of_nat d)%Z then
        let filenameIndex := Z.to_nat (sepIndex + 1) in
        if existsb (fun c => negb (Ascii.eqb c dot)) (firstn (d - filenameIndex) (skipn filenameIndex p))
        then (firstn d p, skipn d p)
        else (p, [])
      else (p, [])
  | None => (p, [])
  end.

(** [sorted(l)] on strings. *)
Definition py_sorted (l : list pystr) : list pystr :=
  map snd (Order.sort_by str_ltb (map (fun f => (f, f)) l)).

(** [list(set(l))]: the order of a Python set is unspecified; this model
    keeps first occurrences, and the statements below only use
    membership. *)
Fixpoint dedup (l : list pystr) : list pystr :=
  match l with
  | [] => []
  | x :: l' => if existsb (str_eqb x) l' then dedup l' else x :: dedup l'
  end.

Record image_info := mk_info {
  count : nat;
  info_files : list pystr;
  formats : list pystr
}.

(** [get_image_info(image_folder)]; [None] when [os.listdir] raises. *)
Definition get_image_info (env : Env) (image_folder : pystr) : option image_info :=
  match listdir env image_folder with
  | None => None
  | Some names =>
      let image_files := filter Filter.is_supported names in
      Some (mk_info (List.length image_files) (py_sorted image_files)
                    (dedup (map (fun f => py_lower (snd (splitext f))) image_files)))
  end.

End Info.

(* ================================================================== *)
(** ** [create_test_images.py]: the generated file names *)

Module TestImages.

(** [str(n)] for [n >= 0]; [fuel] above [n] is enough. *)
Fixpoint str_nat_aux (fuel n : nat) (acc : pystr) : pystr :=
  match fuel with
  | 0 => acc
  | S fuel' =>
      let acc' := chr (48 + Nat.modulo n 10)%nat :: acc in
      if (n <? 10)%nat then acc' else str_nat_aux fuel' (Nat.div n 10) acc'
  end.

Definition py_str_nat (n : nat) : pystr := str_nat_aux (S n) n [].

(** [f"{n:03d}"] for [n >= 0]: zero-padded to width 3. *)
Definition fmt_03d (n : nat) : pystr :=
  let s := py_str_nat n in repeat "0"%char (3 - List.length s) ++ s.

(** Line 57: [f"frame_{i+1:03d}.jpg"]. *)
Definition test_filename (i : nat) : pystr := lit "frame_" ++ fmt_03d (i + 1) ++ lit ".jpg".

(** The names written by [create_test_images(output_folder, count)], in
    creation order ([for i in range(count)]). *)
Definition test_filenames (count : nat) : list pystr := map test_filename (seq 0 count).

End TestImages.

(* ================================================================== *)
(** ** The frame-size invariant of the batch loop *)

Module PipelineInv.
Import Pipeline.

(** Before a base size is set the buffer is empty; once it is set it is
    the normalised size of a decodable file, every buffered frame but the
    first has that size, and the first has it or its own decoded size. *)
Definition size_inv (env : Env) (s : St) : Prop :=
  match base_size s with
  | None => images s = []
  | Some b =>
      (exists p sz, open_image env p = Some sz /\ b = first_base sz) /\
      match images s with
      | [] => True
      | f :: rest =>
          Forall (fun g => fr_size g = b) rest /\
          (fr_size f = b \/ open_image env (fr_src f) = Some (fr_size f))
      end
  end.

End PipelineInv.

(** ** The batch loop, file by file *)

Module LoopSpec.
Import Pipeline.

(** Whether the per-file body for [p] runs to its end under the
    [base_size] [b] in force: [Image.open] succeeds, [resize] (applied to
    every file once [base_size] is set) does not raise, and
    [convert('P')] does not raise. *)
Definition body_completes (env : Env) (b : option dims) (p : pystr) : bool :=
  match open_image env p with
  | None => false
  | Some _ =>
      negb (match b with Some _ => resize_fails env p | None => false end) &&
      negb (quantize_fails env p)
  end.

(** [base_size] after the body for [p], whether it completed or raised:
    set by the first file that decodes. *)
Definition base_after_file (env : Env) (b : option dims) (p : pystr) : option dims :=
  match b, open_image env p with
  | None, Some sz => Some (first_base sz)
  | _, _ => b
  end.

(** The files of [files] whose body completes, in their order, starting
    from [base_size] [b]. *)
Fixpoint completed (env : Env) (b : option dims) (files : list pystr) : list pystr :=
  match files with
  | [] => []
  | p :: rest =>
      (if body_completes env b p then [p] else []) ++
      completed env (base_after_file env b p) rest
  end.

(** The loop, started at index [i] with [base_size] [b], breaks after
    the file at position [j] of [files]: its body completes (so the
    buffer is non-empty), its index is at a batch boundary, and the
    memory sample there is above 80%. *)
Definition breaks_at (env : Env) (b : option dims) (i : nat) (files : list pystr) (j : nat) : bool :=
  match nth_error files j with
  | None => false
  | Some p =>
      body_completes env (fold_left (base_after_file env) (firstn j files) b) p &&
      Nat.eqb (Nat.modulo (S (i + j)) batch_size) 0 &&
      (mem_percent env (i + j) >? 80)%Z
  end.

End LoopSpec.

Module ExtraWorlds.
Import Pipeline.

(** A folder with no supported file. *)
Definition text_env : Env :=
  Worlds.good_env [lit "notes.txt"; lit "clip.gif"] (fun _ => Some (640, 480)%Z).

(** The [n] files of [create_test_images], listed in reverse order. *)
Definition test_env (n : nat) : Env :=
  Worlds.good_env (rev (TestImages.test_filenames n)) (fun _ => Some (400, 300)%Z).

(** Three files; the first is 2148x1080, the others 800x600. *)
Definition wide_first_env : Env :=
  Worlds.good_env (Worlds.png_names 3)
    (fun p => if str_eqb p (path_join Worlds.folder (Worlds.nat_name 0)) then Some (2148, 1080)%Z
              else Some (800, 600)%Z).

End ExtraWorlds.

(* ================================================================== *)
(** ** Lemmas on the string model *)

Module StrFacts.

Lemma str_eqb_spec (a b : pystr) : str_eqb a b = true <-> a = b.
Proof.
  revert b; induction a as [|x a IH]; intros [|y b]; simpl; try (split; congruence).
  rewrite andb_true_iff, Ascii.eqb_eq, IH. split.
  - intros [-> ->]; reflexivity.
  - intros H; injection H; auto.
Qed.

Lemma str_eqb_len (a b : pystr) : List.length a <> List.length b -> str_eqb a b = false.
Proof.
  intros Hl. destruct (str_eqb a b) eqn:E; [|reflexivity].
  apply str_eqb_spec in E; subst; contradiction.
Qed.

Lemma endswith_nil (suf : pystr) : endswith [] suf = str_eqb [] suf.
Proof. destruct suf; reflexivity. Qed.

Lemma endswith_cons (c : ascii) (s suf : pystr) :
  endswith (c :: s) suf = endswith s suf || str_eqb (c :: s) suf.
Proof.
  unfold endswith. simpl List.length.
  destruct (Nat.le_gt_cases (List.length suf) (List.length s)) as [Hle|Hgt].
  - replace (S (List.length s) - List.length suf) with (S (List.length s - List.length suf)) by lia.
    simpl skipn.
    assert (E1 : (List.length suf <=? S (List.length s)) = true) by (apply Nat.leb_le; lia).
    assert (E2 : (List.length suf <=? List.length s) = true) by (apply Nat.leb_le; lia).
    rewrite E1, E2. rewrite (str_eqb_len (c :: s) suf) by (simpl; lia).
    rewrite orb_false_r; reflexivity.
  - assert (E2 : (List.length suf <=? List.length s) = false) by (apply Nat.leb_gt; lia).
    rewrite E2, andb_false_l, orb_false_l.
    destruct (Nat.eq_dec (List.length suf) (S (List.length s))) as [Heq|Hne].
    + rewrite Heq, Nat.sub_diag, Nat.leb_refl. reflexivity.
    + assert (E1 : (List.length suf <=? S (List.length s)) = false) by (apply Nat.leb_gt; lia).
      rewrite E1, andb_false_l. symmetry. apply str_eqb_len. simpl; lia.
Qed.

(** A name ends with [.t], [t] free of dots, exactly when its extension
    is [.t]. *)
Lemma endswith_last_ext (t s : pystr) :
  ~ In "."%char t ->
  endswith s ("."%char :: t) = true <-> last_ext s = Some ("."%char :: t).
Proof.
  intros Ht. induction s as [|c s IH].
  - rewrite endswith_nil. simpl. split; discriminate.
  - rewrite endswith_cons, orb_true_iff, str_eqb_spec. simpl last_ext.
    destruct (last_ext s) as [e|] eqn:Es.
    + split.
      * intros [H|H]; [apply IH; exact H|].
        injection H as -> ->.
        exfalso. clear IH. revert e Es. induction t as [|x t IHt]; intros e Es.
        -- discriminate.
        -- simpl in Es. destruct (last_ext t) eqn:Et.
           ++ apply (IHt (fun H => Ht (or_intror H)) p); reflexivity.
           ++ destruct (Ascii.eqb x "."%char) eqn:Ex.
              ** apply Ascii.eqb_eq in Ex; subst. apply Ht; left; reflexivity.
              ** discriminate.
      * intros H. left. apply IH. exact H.
    + assert (Hs : endswith s ("."%char :: t) = false).
      { apply not_true_iff_false. intros E. apply IH in E. discriminate. }
      rewrite Hs. split.
      * intros [H|H]; [discriminate|]. injection H as -> ->. reflexivity.
      * intros H. right. destruct (Ascii.eqb c "."%char) eqn:Ec; [|discriminate].
        apply Ascii.eqb_eq in Ec; subst. injection H as ->. reflexivity.
Qed.

(** [str.lower] on Latin-1 sends a character to ['.'] only from ['.']. *)
Lemma py_lower_char_dot (c : ascii) :
  Ascii.eqb (py_lower_char c) "."%char = Ascii.eqb c "."%char.
Proof.
  destruct c as [[] [] [] [] [] [] [] []]; vm_compute; reflexivity.
Qed.

Lemma last_ext_lower (s : pystr) :
  last_ext (py_lower s) = option_map py_lower (last_ext s).
Proof.
  induction s as [|c s IH]; [reflexivity|].
  unfold py_lower in *. simpl map. simpl last_ext. rewrite IH.
  destruct (last_ext s); [reflexivity|]. simpl.
  rewrite py_lower_char_dot. destruct (Ascii.eqb c "."%char); reflexivity.
Qed.

End StrFacts.

Module FilterFacts.
Import StrFacts.

Lemma supported_shape (fmt : pystr) :
  In fmt Filter.supported_formats -> exists t, fmt = "."%char :: t /\ ~ In "."%char t.
Proof.
  simpl. intros H.
  repeat (destruct H as [<-|H];
          [eexists; split; [reflexivity | simpl; intuition discriminate] |]).
  contradiction.
Qed.

(** C7. The format filter accepts a file name exactly when the name's
    extension (the suffix from its last ['.']), lower-cased, is one of
    [.jpg], [.jpeg], [.png], [.bmp], [.tiff], [.webp].  The filter is a
    pure function of the name. *)
Theorem C7_format_filter_iff (file : pystr) :
  Filter.is_supported file = true <->
  exists e, last_ext file = Some e /\ In (py_lower e) Filter.supported_formats.
Proof.
  unfold Filter.is_supported. rewrite existsb_exists. split.
  - intros [fmt [Hin Hend]].
    destruct (supported_shape fmt Hin) as [t [-> Ht]].
    apply (endswith_last_ext t) in Hend; [|exact Ht].
    rewrite last_ext_lower in Hend.
    destruct (last_ext file) as [e|]; [|discriminate].
    injection Hend as He. exists e. rewrite He. split; [reflexivity | exact Hin].
  - intros [e [He Hin]]. exists (py_lower e). split; [exact Hin|].
    destruct (supported_shape _ Hin) as [t [Hfmt Ht]].
    rewrite Hfmt. apply (endswith_last_ext t); [exact Ht|].
    rewrite last_ext_lower, He. simpl. rewrite Hfmt. reflexivity.
Qed.

End FilterFacts.

(* ================================================================== *)
(** ** Lemmas on the sort *)

Module OrderFacts.
Import Order.

Section Insertion.
Context {A : Type}.

Lemma insert_by_perm (x : Z * A) (ys : list (Z * A)) :
  Permutation (insert_by Z.ltb x ys) (x :: ys).
Proof.
  induction ys as [|y ys IH]; simpl; [reflexivity|].
  destruct (fst y <? fst x)%Z; [|reflexivity].
  rewrite IH. apply perm_swap.
Qed.

Lemma sort_by_perm (xs : list (Z * A)) : Permutation (sort_by Z.ltb xs) xs.
Proof.
  induction xs as [|x xs IH]; simpl; [reflexivity|].
  rewrite insert_by_perm. apply perm_skip, IH.
Qed.

Lemma insert_by_hd (y x : Z * A) (ys : list (Z * A)) :
  key_le y x -> HdRel key_le y ys -> HdRel key_le y (insert_by Z.ltb x ys).
Proof.
  intros Hyx Hy. destruct ys as [|z ys]; simpl.
  - constructor. exact Hyx.
  - destruct (fst z <? fst x)%Z; constructor; [inversion Hy; assumption | exact Hyx].
Qed.

Lemma insert_by_sorted (x : Z * A) (ys : list (Z * A)) :
  Sorted key_le ys -> Sorted key_le (insert_by Z.ltb x ys).
Proof.
  induction ys as [|y ys IH]; intros Hs; simpl.
  - constructor; constructor.
  - inversion Hs as [|? ? Hs' Hhd]; subst.
    destruct (fst y <? fst x)%Z eqn:E.
    + apply Z.ltb_lt in E. constructor; [apply IH, Hs'|].
      apply insert_by_hd; [unfold key_le; lia | exact Hhd].
    + apply Z.ltb_ge in E. constructor; [exact Hs|]. constructor. unfold key_le; lia.
Qed.

(** Keys end up in non-decreasing order. *)
Lemma sort_by_sorted (xs : list (Z * A)) : Sorted key_le (sort_by Z.ltb xs).
Proof.
  induction xs as [|x xs IH]; simpl; [constructor|]. apply insert_by_sorted, IH.
Qed.

Lemma insert_by_stable (k : Z) (x : Z * A) (ys : list (Z * A)) :
  filter (with_key k) (insert_by Z.ltb x ys) = filter (with_key k) (x :: ys).
Proof.
  induction ys as [|y ys IH]; simpl; [reflexivity|].
  destruct (fst y <? fst x)%Z eqn:E; [|reflexivity].
  apply Z.ltb_lt in E. simpl. rewrite IH. simpl. unfold with_key.
  destruct (Z.eqb_spec (fst y) k), (Z.eqb_spec (fst x) k); try reflexivity; lia.
Qed.

(** Files with equal keys keep their listing order. *)
Lemma sort_by_stable (k : Z) (xs : list (Z * A)) :
  filter (with_key k) (sort_by Z.ltb xs) = filter (with_key k) xs.
Proof.
  induction xs as [|x xs IH]; simpl; [reflexivity|].
  rewrite insert_by_stable. simpl. rewrite IH. reflexivity.
Qed.
End Insertion.

Lemma keys_of_spec (xs : list pystr) kx :
  keys_of numeric_key xs = Some kx ->
  map snd kx = xs /\ Forall (fun x => numeric_key (snd x) = Some (fst x)) kx.
Proof.
  revert kx; induction xs as [|x xs IH]; intros kx H; simpl in H.
  - injection H as <-. split; constructor.
  - destruct (numeric_key x) eqn:Ek; [|discriminate].
    destruct (keys_of numeric_key xs) as [ks|]; [|discriminate].
    injection H as <-. destruct (IH ks eq_refl) as [H1 H2].
    split; [simpl; rewrite H1; reflexivity | constructor; [exact Ek | exact H2]].
Qed.

(** When every key can be computed, the numeric sort returns the files
    in non-decreasing key order, stably, as a permutation of the input. *)
Lemma sort_files_numeric_spec (files : list pystr) kx :
  keys_of numeric_key files = Some kx ->
  sort_files true files = Some (map snd (sort_by Z.ltb kx)) /\
  Permutation (map snd (sort_by Z.ltb kx)) files /\
  Sorted key_le (sort_by Z.ltb kx) /\
  Forall (fun x => numeric_key (snd x) = Some (fst x)) (sort_by Z.ltb kx) /\
  (forall k, filter (with_key k) (sort_by Z.ltb kx) = filter (with_key k) kx).
Proof.
  intros H. destruct (keys_of_spec files kx H) as [Hm Hf].
  split; [unfold sort_files; rewrite H; reflexivity|].
  split; [rewrite <- Hm; apply Permutation_map, sort_by_perm|].
  split; [apply sort_by_sorted|].
  split; [|intros k; apply sort_by_stable].
  apply (Permutation_Forall (Permutation_sym (sort_by_perm kx))), Hf.
Qed.

Lemma py_int_acc_some (acc : Z) (s : pystr) :
  Forall (fun c => py_decimal c <> None) s -> exists k, py_int_acc acc s = Some k.
Proof.
  revert acc; induction s as [|c s IH]; intros acc Hs; simpl; [eexists; reflexivity|].
  inversion Hs as [|? ? Hc Hs']; subst.
  destruct (py_decimal c) as [d|]; [apply IH, Hs' | contradiction].
Qed.

(** A key can be computed whenever every [isdigit] character of the base
    name is a decimal digit (always the case for ASCII names). *)
Lemma numeric_key_defined (p : pystr) :
  (forall c, In c (basename p) -> py_isdigit c = true -> py_decimal c <> None) ->
  exists k, numeric_key p = Some k.
Proof.
  intros H. unfold numeric_key.
  assert (Hd : Forall (fun c => py_decimal c <> None) (filter py_isdigit (basename p))).
  { apply Forall_forall. intros c Hc. apply filter_In in Hc as [Hin Hdig]. apply H; assumption. }
  destruct (filter py_isdigit (basename p)) as [|c cs]; [eexists; reflexivity|].
  apply py_int_acc_some, Hd.
Qed.

End OrderFacts.

(* ================================================================== *)
(** ** Lemmas on the batch loop *)

Module LoopFacts.
Import Pipeline.

Lemma saved_frames_app_one (tr : list event) (ev : event) :
  is_save ev = false -> saved_frames (tr ++ [ev]) = saved_frames tr.
Proof.
  intros Hev. induction tr as [|e tr IH].
  - destruct ev; simpl in *; congruence.
  - destruct e; simpl; try exact IH; reflexivity.
Qed.

Ltac unfold_m :=
  unfold file_step, bind, ret, raise, emit, lift_opt, get_base, set_base,
         get_images, append_image, incr_processed in *.

Ltac split_m H :=
  repeat (cbn -[Nat.modulo batch_size] in H;
          match type of H with
          | context[match ?x with _ => _ end] =>
              lazymatch type of x with
              | bool => destruct x eqn:?
              | option _ => destruct x eqn:?
              end
          end);
  cbn -[Nat.modulo batch_size] in H; try discriminate.

(** An exception in the per-file body leaves the frame buffer as it was
    and emits no [save]. *)
Lemma file_step_err env i p s s1 e :
  file_step env i p s = (s1, Err e) ->
  images s1 = images s /\ saved_frames (trace s1) = saved_frames (trace s).
Proof.
  intros H. unfold_m. split_m H.
  all: injection H as <- _; simpl; rewrite ?saved_frames_app_one by reflexivity; auto.
Qed.

(** A completed body appends exactly one frame, of the file at hand; it
    breaks only at a batch boundary with memory above 80%. *)
Lemma file_step_ok env i p s s1 c :
  file_step env i p s = (s1, Ok c) ->
  (exists sz, images s1 = images s ++ [mk_frame p sz]) /\
  saved_frames (trace s1) = saved_frames (trace s) /\
  (c = Break -> Nat.modulo (S i) batch_size = 0 /\ (mem_percent env i > 80)%Z).
Proof.
  intros H. unfold_m. split_m H.
  all: injection H as <- <-; simpl; rewrite ?saved_frames_app_one by reflexivity.
  all: split; [eexists; reflexivity | split; [reflexivity | intros Hc]]; try discriminate.
  all: split; [apply Nat.eqb_eq; assumption
             | match goal with Hm : (_ >? 80)%Z = true |- _ =>
                 apply Z.gtb_lt in Hm; lia end].
Qed.

(** An exception on one file only moves the loop on to the next file. *)
Lemma process_files_skip env i p rest s s1 e :
  file_step env i p s = (s1, Err e) ->
  process_files env i (p :: rest) s = process_files env (S i) rest s1.
Proof.
  intros H. simpl. unfold bind, catch. rewrite H. reflexivity.
Qed.

(** The batch loop never raises.  It appends to the buffer, in the order
    of the file list, the frames of some of the first [k] files; [k] is
    the whole list unless the loop broke at a batch boundary with memory
    above 80%. *)
Lemma process_files_spec env i files s :
  exists s1 k new,
    process_files env i files s = (s1, Ok tt) /\
    images s1 = images s ++ new /\
    sublist (map fr_src new) (firstn k files) /\
    saved_frames (trace s1) = saved_frames (trace s) /\
    k <= List.length files /\
    (k = List.length files \/
     (0 < k /\ Nat.modulo (i + k) batch_size = 0 /\ (mem_percent env (i + k - 1) > 80)%Z)).
Proof.
  revert i s. induction files as [|p rest IH]; intros i s.
  - exists s, 0, []. rewrite app_nil_r. repeat split; auto; constructor.
  - simpl process_files. unfold bind at 1, catch.
    destruct (file_step env i p s) as [s1 [c|e]] eqn:Hf.
    + destruct (file_step_ok env i p s s1 c Hf) as [[sz Himg] [Hsv Hbrk]].
      destruct c.
      * destruct (IH (S i) s1) as [s2 [k [new [Hrun [Hi [Hsub [Hs [Hk Hend]]]]]]]].
        exists s2, (S k), (mk_frame p sz :: new).
        rewrite Hrun. repeat split.
        -- rewrite Hi, Himg, <- app_assoc. reflexivity.
        -- simpl. apply sl_keep. exact Hsub.
        -- congruence.
        -- simpl; lia.
        -- destruct Hend as [->|[Hk0 [Hm Hp]]]; [left; reflexivity | right].
           replace (i + S k) with (S i + k) by lia.
           replace (i + S k - 1) with (S i + k - 1) by lia.
           split; [lia | split; assumption].
      * destruct (Hbrk eq_refl) as [Hm Hp].
        exists s1, 1, [mk_frame p sz]. repeat split.
        -- exact Himg.
        -- simpl. apply sl_keep, sl_nil.
        -- exact Hsv.
        -- simpl; lia.
        -- right. replace (i + 1) with (S i) by lia.
           replace (S i - 1) with i by lia. split; [lia | split; assumption].
    + destruct (file_step_err env i p s s1 e Hf) as [Himg Hsv].
      unfold ret at 1.
      destruct (IH (S i) s1) as [s2 [k [new [Hrun [Hi [Hsub [Hs [Hk Hend]]]]]]]].
      exists s2, (S k), new. rewrite Hrun. repeat split.
      * rewrite Hi, Himg. reflexivity.
      * simpl. apply sl_skip. exact Hsub.
      * congruence.
      * simpl; lia.
      * destruct Hend as [->|[Hk0 [Hm Hp]]]; [left; reflexivity | right].
        replace (i + S k) with (S i + k) by lia.
        replace (i + S k - 1) with (S i + k - 1) by lia.
        split; [lia | split; assumption].
Qed.

End LoopFacts.

(* ================================================================== *)
(** ** The run, stage by stage *)

Module RunFacts.
Import Pipeline LoopFacts.

Lemma run_create_eq env a :
  run_create env a =
  match prepare env a init_st with
  | (s0, Err e) => (s0, Err e)
  | (s0, Ok files) => finish env a (fst (process_files env 0 files s0))
  end.
Proof.
  unfold run_create, create_body, prepare, finish.
  cbv delta [bind ret raise emit] beta.
  destruct (psutil_ok env); cbn -[select_files process_files]; [|reflexivity].
  destruct (select_files env a (effective_max_frames env a) _) as [s0 [files|e]]; [|reflexivity].
  destruct (process_files_spec env 0 files s0) as [s1 [k [new [Hrun _]]]].
  rewrite Hrun. cbn [fst]. destruct s1 as [t im b n]; simpl; destruct im; reflexivity.
Qed.

Lemma saved_frames_app_save tr out fs :
  saved_frames tr = None -> saved_frames (tr ++ [EvSave out fs]) = Some fs.
Proof.
  induction tr as [|e tr IH]; [reflexivity|].
  destruct e; simpl; try exact IH; discriminate.
Qed.

Ltac split_prep H :=
  repeat (cbn -[Order.sort_files Filter.is_supported path_join effective_max_frames truncate] in H;
          match type of H with
          | context[match ?x with _ => _ end] =>
              lazymatch type of x with
              | bool => destruct x eqn:?
              | option _ => destruct x eqn:?
              | list _ => destruct x eqn:?
              end
          end);
  cbn -[Order.sort_files Filter.is_supported path_join effective_max_frames truncate] in H;
  try discriminate.

(** The stages before the loop neither touch the frame buffer nor call
    the encoder, and never raise [NoFramesProcessed]. *)
Lemma prepare_facts env a s0 r :
  prepare env a init_st = (s0, r) ->
  images s0 = [] /\ saved_frames (trace s0) = None /\ r <> Err NoFramesProcessed.
Proof.
  intros H. unfold prepare, select_files, bind, ret, raise, emit, lift_opt in H.
  split_prep H; injection H as <- <-; simpl; repeat split; discriminate.
Qed.

(** What [prepare] hands to the loop: the supported names of the
    listing, joined to the folder, sorted, then truncated to the budget. *)
Lemma prepare_ok env a s0 files :
  prepare env a init_st = (s0, Ok files) ->
  exists names sorted,
    listdir env (image_folder a) = Some names /\
    Order.sort_files (sort_numerically a)
      (map (path_join (image_folder a)) (filter Filter.is_supported names)) = Some sorted /\
    files = truncate (effective_max_frames env a) sorted.
Proof.
  intros H. unfold prepare, select_files, bind, ret, raise, emit, lift_opt in H.
  split_prep H; injection H as <- <-.
  match goal with
  | E1 : listdir _ _ = Some ?n, E2 : map _ _ = _, E3 : Order.sort_files _ _ = Some ?r |- _ =>
      exists n, r; rewrite E2; auto
  end.
Qed.

End RunFacts.

(* ================================================================== *)
(** ** The batch loop, exactly *)

Module LoopExact.
Import Pipeline LoopFacts RunFacts LoopSpec.

(** One body: [base_size] moves as [base_after_file] says; the body
    completes exactly when [body_completes] holds, and then appends one
    frame of [p] and breaks exactly at a boundary under memory pressure;
    otherwise the buffer is untouched. *)
Lemma file_step_exact env i p s s1 r :
  file_step env i p s = (s1, r) ->
  base_size s1 = base_after_file env (base_size s) p /\
  saved_frames (trace s1) = saved_frames (trace s) /\
  match r with
  | Ok c =>
      body_completes env (base_size s) p = true /\
      (exists sz, images s1 = images s ++ [mk_frame p sz]) /\
      (c = Break <-> (Nat.modulo (S i) batch_size = 0 /\ (mem_percent env i > 80)%Z))
  | Err _ => body_completes env (base_size s) p = false /\ images s1 = images s
  end.
Proof.
  intros H. unfold_m. split_m H.
  all: injection H as <- <-; cbn -[Nat.modulo batch_size first_base].
  all: unfold body_completes, base_after_file.
  all: repeat match goal with E : _ = _ |- _ => rewrite E end.
  all: cbn -[Nat.modulo batch_size first_base]; rewrite ?saved_frames_app_one by reflexivity.
  all: repeat split; try reflexivity; try (eexists; reflexivity); try discriminate.
  all: try (destruct (base_size s); reflexivity).
  all: try (apply Nat.eqb_eq; assumption).
  all: try (match goal with Hm : (_ >? 80)%Z = true |- _ => apply Z.gtb_lt in Hm; lia end).
  all: intros [Hm Hp]; exfalso.
  all: try (match goal with E : (_ =? 0) = false |- _ =>
                apply Nat.eqb_neq in E; contradiction end).
  all: try (match goal with E : (_ >? 80)%Z = false |- _ =>
                rewrite Z.gtb_ltb in E; apply Z.ltb_ge in E; lia end).
  all: match goal with E : match List.length _ with _ => _ end = false |- _ =>
         rewrite length_app, Nat.add_comm in E; discriminate end.
Qed.

Lemma breaks_at_zero env b i p rest :
  breaks_at env b i (p :: rest) 0 =
  body_completes env b p && Nat.eqb (Nat.modulo (S i) batch_size) 0 && (mem_percent env i >? 80)%Z.
Proof. unfold breaks_at. cbn [nth_error firstn fold_left]. rewrite Nat.add_0_r. reflexivity. Qed.

Lemma breaks_at_cons env b i p rest j :
  breaks_at env b i (p :: rest) (S j) = breaks_at env (base_after_file env b p) (S i) rest j.
Proof.
  unfold breaks_at. cbn [nth_error firstn fold_left].
  replace (i + S j) with (S i + j) by lia. reflexivity.
Qed.

(** The batch loop never raises; the frames it appends are those of the
    files whose body completes among the first [k], in order, where [k]
    runs up to the first break, or to the end of the list. *)
Lemma process_files_exact env i files s :
  exists s1 k new,
    process_files env i files s = (s1, Ok tt) /\
    images s1 = images s ++ new /\
    saved_frames (trace s1) = saved_frames (trace s) /\
    map fr_src new = completed env (base_size s) (firstn k files) /\
    k <= List.length files /\
    (forall j, S j < k -> breaks_at env (base_size s) i files j = false) /\
    (k = List.length files \/ (0 < k /\ breaks_at env (base_size s) i files (k - 1) = true)).
Proof.
  revert i s. induction files as [|p rest IH]; intros i s.
  - exists s, 0, []. rewrite app_nil_r. repeat split; auto; intros; lia.
  - simpl process_files. unfold bind at 1, catch.
    destruct (file_step env i p s) as [s1 [c|e]] eqn:Hf;
      destruct (file_step_exact env i p s s1 _ Hf) as [Hb [Hsv Hr]].
    + destruct Hr as [Hc [[sz Himg] Hbrk]]. destruct c.
      * destruct (IH (S i) s1) as [s2 [k [new [Hrun [Hi [Hs [Hmap [Hk [Hnb Hend]]]]]]]]].
        exists s2, (S k), (mk_frame p sz :: new).
        rewrite Hrun. repeat split.
        -- rewrite Hi, Himg, <- app_assoc. reflexivity.
        -- congruence.
        -- cbn [firstn completed map fr_src]. rewrite Hc, <- Hb, <- Hmap. reflexivity.
        -- simpl; lia.
        -- intros [|j] Hj.
           ++ rewrite breaks_at_zero, Hc.
              destruct (Nat.eqb (Nat.modulo (S i) batch_size) 0) eqn:E1; [|reflexivity].
              destruct (mem_percent env i >? 80)%Z eqn:E2; [|reflexivity].
              exfalso. apply Nat.eqb_eq in E1. apply Z.gtb_lt in E2.
              assert (Continue = Break) by (apply Hbrk; split; [exact E1 | lia]). discriminate.
           ++ rewrite breaks_at_cons, <- Hb. apply Hnb. lia.
        -- destruct Hend as [->|[Hk0 Hbr]]; [left; reflexivity | right].
           split; [lia|]. replace (S k - 1) with (S (k - 1)) by lia.
           rewrite breaks_at_cons, <- Hb. exact Hbr.
      * destruct (proj1 Hbrk eq_refl) as [Hm Hp].
        exists s1, 1, [mk_frame p sz]. repeat split.
        -- exact Himg.
        -- exact Hsv.
        -- cbn [firstn completed map fr_src]. rewrite Hc. reflexivity.
        -- simpl; lia.
        -- intros j Hj; lia.
        -- right. split; [lia|]. cbn [Nat.sub]. rewrite breaks_at_zero, Hc.
           apply Nat.eqb_eq in Hm. rewrite Hm. simpl. apply Z.gtb_lt. lia.
    + destruct Hr as [Hc Himg]. unfold ret at 1.
      destruct (IH (S i) s1) as [s2 [k [new [Hrun [Hi [Hs [Hmap [Hk [Hnb Hend]]]]]]]]].
      exists s2, (S k), new. rewrite Hrun. repeat split.
      * rewrite Hi, Himg. reflexivity.
      * congruence.
      * cbn [firstn completed]. rewrite Hc, <- Hb, <- Hmap. reflexivity.
      * simpl; lia.
      * intros [|j] Hj.
        -- rewrite breaks_at_zero, Hc. reflexivity.
        -- rewrite breaks_at_cons, <- Hb. apply Hnb. lia.
      * destruct Hend as [->|[Hk0 Hbr]]; [left; reflexivity | right].
        split; [lia|]. replace (S k - 1) with (S (k - 1)) by lia.
        rewrite breaks_at_cons, <- Hb. exact Hbr.
Qed.

Lemma prepare_base_none env a s0 r :
  prepare env a init_st = (s0, r) -> base_size s0 = None.
Proof.
  intros H. unfold prepare, select_files, bind, ret, raise, emit, lift_opt in H.
  split_prep H; injection H as <- _; reflexivity.
Qed.

End LoopExact.

(* ================================================================== *)
(** ** Per-file failures and the frame buffer *)

Module BatchClaims.
Import Pipeline LoopFacts RunFacts LoopSpec LoopExact Worlds.

(** C5. A failure on one file (decoding, resizing or palette conversion
    raising) never aborts the run: the buffer is left as it was and the
    loop goes on with the next file.  The run ends in
    [NoFramesProcessed] exactly when the stages before the loop succeeded
    and the loop produced no frame, and then the encoder is never called. *)
Theorem C5_failures_skipped_no_frames (env : Env) (a : Args) :
  (forall i p rest s s1 e,
     file_step env i p s = (s1, Err e) ->
     images s1 = images s /\
     process_files env i (p :: rest) s = process_files env (S i) rest s1) /\
  (snd (run_create env a) = Err NoFramesProcessed <->
     exists s0 files, prepare env a init_st = (s0, Ok files) /\
                      images (fst (process_files env 0 files s0)) = []) /\
  (snd (run_create env a) = Err NoFramesProcessed -> encoder_input env a = None).
Proof.
  assert (Hiff : snd (run_create env a) = Err NoFramesProcessed <->
     exists s0 files, prepare env a init_st = (s0, Ok files) /\
                      images (fst (process_files env 0 files s0)) = []).
  { rewrite run_create_eq.
    destruct (prepare env a init_st) as [s0 r] eqn:Hp.
    destruct (prepare_facts env a s0 r Hp) as [_ [_ Hne]].
    destruct r as [files|e].
    - destruct (process_files_spec env 0 files s0) as [s1 [k [new [Hrun _]]]].
      rewrite Hrun. simpl fst. unfold finish.
      split.
      + destruct (images s1) as [|f l] eqn:Ei.
        * intros _. exists s0, files. rewrite Hrun. split; [reflexivity | exact Ei].
        * unfold save_gif, bind, emit. destruct (save_ok env); simpl; discriminate.
      + intros [s0' [files' [Hp' Hi]]]. injection Hp' as <- <-.
        rewrite Hrun in Hi. simpl in Hi. rewrite Hi. reflexivity.
    - simpl. split; [intros He; exfalso; apply Hne; injection He as ->; reflexivity|].
      intros [s0' [files' [Hp' _]]]. discriminate. }
  split; [|split; [exact Hiff|]].
  - intros i p rest s s1 e H. split.
    + exact (proj1 (file_step_err env i p s s1 e H)).
    + exact (process_files_skip env i p rest s s1 e H).
  - intros H. apply Hiff in H. destruct H as [s0 [files [Hp Hi]]].
    unfold encoder_input. rewrite run_create_eq, Hp.
    destruct (prepare_facts env a s0 _ Hp) as [_ [Hsv _]].
    destruct (process_files_spec env 0 files s0) as [s1 [k [new [Hrun [_ [_ [Hs _]]]]]]].
    rewrite Hrun in *. simpl in *. unfold finish. rewrite Hi. simpl. congruence.
Qed.

Lemma C5_witness :
  snd (run_create corrupt5_env (args_with None true)) = Err NoFramesProcessed /\
  encoder_input corrupt5_env (args_with None true) = None.
Proof.
  split; [vm_compute; reflexivity|].
  apply (proj2 (proj2 (C5_failures_skipped_no_frames corrupt5_env (args_with None true)))).
  vm_compute. reflexivity.
Defined.

(** C6. The encoder receives the whole frame buffer left at the end of
    the run, and the buffer only grows at its end: each per-file body
    appends at most one frame.  Its frames are, in order, exactly the
    files of the ordered, truncated list whose body completes, among the
    first [k] files, where [k] is the first position at which the loop
    breaks (a completed body at a batch boundary under memory pressure),
    or the whole list. *)
Theorem C6_frames_follow_order (env : Env) (a : Args) (fs : list frame) :
  encoder_input env a = Some fs ->
  (forall i p s s1 r, file_step env i p s = (s1, r) -> exists new, images s1 = images s ++ new) /\
  exists s0 files k,
    prepare env a init_st = (s0, Ok files) /\
    fs = images (fst (run_create env a)) /\
    map fr_src fs = completed env None (firstn k files) /\
    k <= List.length files /\
    (forall j, S j < k -> breaks_at env None 0 files j = false) /\
    (k = List.length files \/ (0 < k /\ breaks_at env None 0 files (k - 1) = true)).
Proof.
  intros H. split.
  { intros i p s s1 r Hf. destruct (file_step_exact env i p s s1 r Hf) as [_ [_ Hr]].
    destruct r as [c|e].
    - destruct Hr as [_ [[sz Himg] _]]. exists [mk_frame p sz]. exact Himg.
    - exists []. rewrite app_nil_r. exact (proj2 Hr). }
  revert H. unfold encoder_input. rewrite run_create_eq.
  destruct (prepare env a init_st) as [s0 r] eqn:Hp.
  destruct (prepare_facts env a s0 r Hp) as [Hi0 [Hsv0 _]].
  pose proof (prepare_base_none env a s0 r Hp) as Hb0.
  destruct r as [files|e]; [|simpl; rewrite Hsv0; discriminate].
  destruct (process_files_exact env 0 files s0)
    as [s1 [k [new [Hrun [Hi [Hs [Hmap [Hk [Hnb Hend]]]]]]]]].
  rewrite Hb0 in Hmap, Hnb, Hend.
  rewrite Hrun. simpl fst. unfold finish.
  rewrite Hi0 in Hi. simpl in Hi.
  destruct (images s1) as [|f l] eqn:Ei; [simpl; rewrite Hs, Hsv0; discriminate|].
  unfold save_gif, bind, emit.
  assert (Hsv1 : saved_frames (trace s1 ++ [EvSave (output_path a) (f :: l)]) = Some (f :: l))
    by exact (saved_frames_app_save _ _ _ (eq_trans Hs Hsv0)).
  intros H. exists s0, files, k.
  destruct (save_ok env); simpl in H |- *; rewrite Hsv1 in H; injection H as <-;
    (split; [reflexivity | split; [symmetry; exact Ei | split; [|auto]]]);
    rewrite Hi; exact Hmap.
Qed.

Lemma C6_witness :
  encoder_input bad100_env (args_with None true) =
    Some (match encoder_input bad100_env (args_with None true) with Some fs => fs | None => [] end) /\
  ((forall i p s s1 r, file_step bad100_env i p s = (s1, r) ->
      exists new, images s1 = images s ++ new) /\
   exists s0 files k,
    prepare bad100_env (args_with None true) init_st = (s0, Ok files) /\
    (match encoder_input bad100_env (args_with None true) with Some fs => fs | None => [] end) =
      images (fst (run_create bad100_env (args_with None true))) /\
    map fr_src (match encoder_input bad100_env (args_with None true) with Some fs => fs | None => [] end) =
      completed bad100_env None (firstn k files) /\
    k <= List.length files /\
    (forall j, S j < k -> breaks_at bad100_env None 0 files j = false) /\
    (k = List.length files \/ (0 < k /\ breaks_at bad100_env None 0 files (k - 1) = true))).
Proof.
  split; [vm_compute; reflexivity|].
  apply C6_frames_follow_order. vm_compute. reflexivity.
Defined.

End BatchClaims.

(* ================================================================== *)
(** ** Memory budget *)

Module BudgetClaims.
Import Pipeline RunFacts Worlds.

Lemma calculated_max_frames_div (x : Z) :
  calculated_max_frames x = (x / 4194304)%Z.
Proof.
  unfold calculated_max_frames, estimated_memory_per_frame, Qfloor. simpl.
  rewrite !Z.mul_1_r. reflexivity.
Qed.

(** A truncation to a zero budget leaves no file. *)
Lemma truncate_zero {A} (l : list A) : truncate 0%Z l = [].
Proof.
  unfold truncate. destruct l as [|x l]; [reflexivity|].
  simpl. destruct (Z.of_nat (S (List.length l)) >? 0)%Z eqn:E; [reflexivity|].
  rewrite Z.gtb_ltb, Z.ltb_ge in E. lia.
Qed.

(** C3, as stated, fails: with no frame cap and 1 MiB available the
    budget is 0, yet the run lists the folder and then fails with
    [NoFramesProcessed]; there is no configuration error before file I/O. *)
Lemma C3_zero_budget_lists_folder :
  effective_max_frames low_env (args_with None true) = 0%Z /\
  run_create low_env (args_with None true) =
    (mk_st [EvMemInfo; EvListdir folder] [] None 0, Err NoFramesProcessed).
Proof. split; vm_compute; reflexivity. Qed.

(** C3 (amended).  Without a caller cap the budget is
    [min(floor(available * 0.5 / 2 MiB), 10000)], that is
    [min(available / 4 MiB, 10000)].  Nothing guards a zero budget: with
    less than 4 MiB available, a readable folder with supported files and
    a sortable list, the run lists the folder, truncates the list to no
    file, and fails with [NoFramesProcessed] having opened nothing. *)
Theorem C3_budget_and_unguarded_zero (env : Env) (a : Args) :
  max_frames a = None ->
  (0 <= available env)%Z ->
  effective_max_frames env a = Z.min (available env / 4194304) 10000 /\
  (forall names p ps sorted,
     (available env < 4194304)%Z ->
     psutil_ok env = true ->
     listdir env (image_folder a) = Some names ->
     map (path_join (image_folder a)) (filter Filter.is_supported names) = p :: ps ->
     Order.sort_files (sort_numerically a) (p :: ps) = Some sorted ->
     run_create env a =
       (mk_st [EvMemInfo; EvListdir (image_folder a)] [] None 0, Err NoFramesProcessed)).
Proof.
  intros Hm Ha.
  assert (Hb : effective_max_frames env a = Z.min (available env / 4194304) 10000).
  { unfold effective_max_frames. rewrite Hm, calculated_max_frames_div. reflexivity. }
  split; [exact Hb|].
  intros names p ps sorted Hlow Hps Hls Hfl Hsort.
  assert (Hz : effective_max_frames env a = 0%Z).
  { rewrite Hb. rewrite Z.div_small by lia. reflexivity. }
  rewrite run_create_eq.
  unfold prepare, select_files, bind, ret, raise, emit, lift_opt.
  rewrite Hps. cbn -[Order.sort_files Filter.is_supported path_join effective_max_frames truncate].
  rewrite Hls. cbn -[Order.sort_files Filter.is_supported path_join effective_max_frames truncate].
  rewrite Hfl, Hsort.
  cbn -[Order.sort_files Filter.is_supported path_join effective_max_frames truncate].
  rewrite Hz, truncate_zero. reflexivity.
Qed.

Lemma C3_witness :
  effective_max_frames low_env (args_with None true) = Z.min (available low_env / 4194304) 10000 /\
  run_create low_env (args_with None true) =
    (mk_st [EvMemInfo; EvListdir folder] [] None 0, Err NoFramesProcessed).
Proof.
  destruct (C3_budget_and_unguarded_zero low_env (args_with None true) eq_refl)
    as [H1 H2]; [vm_compute; discriminate|].
  split; [exact H1|].
  apply (H2 (png_names 3) (path_join folder (nat_name 0))
            (map (path_join folder) [nat_name 1; nat_name 2])
            (map (path_join folder) (png_names 3))); vm_compute; reflexivity.
Defined.

End BudgetClaims.

(* ================================================================== *)
(** ** The unused [quality] parameter *)

Module QualityClaims.
Import Pipeline.

(** C10. [quality] is accepted and never read: two calls that differ
    only in it have the same run, hence the same result, trace, encoder
    input and frames. *)
Theorem C10_quality_irrelevant (env : Env) (f o : pystr) (d l : Z) (opt : bool)
    (q1 q2 : Z) (sn : bool) (mf : option Z) :
  run_create env (mk_args f o d l opt q1 sn mf) = run_create env (mk_args f o d l opt q2 sn mf).
Proof. reflexivity. Qed.

End QualityClaims.

(* ================================================================== *)
(** ** Frame sizes *)

Module SizeClaims.
Import Pipeline Worlds.

(** C1 (code bug).  The first decoded image sets [base_size], downscaled
    to 1920x1080 here, but the branch that sets it never resizes that
    image: the first frame reaches the encoder at 3840x2160 while the
    others are 1920x1080. *)
Theorem C1_first_frame_not_downscaled :
  base_size (fst (run_create big_first_env (args_with None true))) = Some (1920, 1080)%Z /\
  option_map (map fr_size) (encoder_input big_first_env (args_with None true)) =
    Some [(3840, 2160); (1920, 1080); (1920, 1080)]%Z.
Proof. split; vm_compute; reflexivity. Qed.

End SizeClaims.

(* ================================================================== *)
(** ** Command-line options *)

Module CliClaims.
Import Pipeline Cli Worlds.

(** C2 (code bug).  [main] parses [-m] and [--max-size] but passes
    neither on: the call always has [max_frames=None], it does not depend
    on [--max-size], and with [-m 2] on ten good images all ten frames are
    encoded. *)
Theorem C2_max_options_dropped :
  (forall c, max_frames (cli_call c) = None) /\
  (forall c m, cli_call c = cli_call (mk_cli (Cli.folder c) (output c) (c_duration c) (c_loop c)
                                            (c_max c) (no_optimize c) (no_sort c) m)) /\
  option_map (@List.length frame) (encoder_input ten_env (cli_call cli_m2)) = Some 10.
Proof.
  split; [reflexivity|]. split; [reflexivity|]. vm_compute. reflexivity.
Qed.

(** [-h], or a usage error. *)
Lemma C9_exit_codes_outside_conversion :
  cli_main ten_env UsageError = 2%Z /\ cli_main ten_env HelpRequested = 0%Z.
Proof. split; reflexivity. Qed.

(** C9 (amended).  When [argparse] accepts the command line, [main]
    exits 0 if [create_gif_from_images] returned [True] and 1 if it
    returned [False]; [-h] exits 0 and a usage error exits 2, both
    without a conversion.  [create_gif_from_images] returns a boolean for
    every world: [True] exactly when its body finished without an
    exception, and [False] for instance when the folder cannot be listed. *)
Theorem C9_exit_status (env : Env) (po : parse_outcome) :
  (cli_main env po = 0%Z <->
     po = HelpRequested \/ exists c, po = Parsed c /\ create_gif_from_images env (cli_call c) = true) /\
  (cli_main env po = 1%Z <->
     exists c, po = Parsed c /\ create_gif_from_images env (cli_call c) = false) /\
  (cli_main env po = 2%Z <-> po = UsageError) /\
  (forall a, create_gif_from_images env a = true <-> exists s, run_create env a = (s, Ok tt)) /\
  (forall a, listdir env (image_folder a) = None -> create_gif_from_images env a = false).
Proof.
  split; [|split; [|split; [|split]]].
  - destruct po as [c| |]; simpl.
    + destruct (create_gif_from_images env (cli_call c)) eqn:E; split.
      * intros _. right. exists c. auto.
      * reflexivity.
      * discriminate.
      * intros [H|[c' [H1 H2]]]; [discriminate|]. injection H1 as <-. congruence.
    + split; [left; reflexivity | reflexivity].
    + split; [discriminate|]. intros [H|[c [H _]]]; discriminate.
  - destruct po as [c| |]; simpl.
    + destruct (create_gif_from_images env (cli_call c)) eqn:E; split.
      * discriminate.
      * intros [c' [H1 H2]]. injection H1 as <-. congruence.
      * intros _. exists c. auto.
      * reflexivity.
    + split; [discriminate|]. intros [c [H _]]; discriminate.
    + split; [discriminate|]. intros [c [H _]]; discriminate.
  - destruct po as [c| |]; simpl.
    + destruct (create_gif_from_images env (cli_call c)); split; discriminate.
    + split; discriminate.
    + split; reflexivity.
  - intros a. unfold create_gif_from_images.
    destruct (run_create env a) as [s [[]|e]]; simpl; split.
    + intros _. exists s. reflexivity.
    + reflexivity.
    + discriminate.
    + intros [s' H]. discriminate.
  - intros a Hl. unfold create_gif_from_images. rewrite RunFacts.run_create_eq.
    unfold prepare, select_files, bind, ret, raise, emit, lift_opt.
    destruct (psutil_ok env); [|reflexivity].
    cbn -[Order.sort_files Filter.is_supported path_join effective_max_frames truncate].
    rewrite Hl. reflexivity.
Qed.

Lemma C9_witness :
  cli_main nofolder_env (Parsed cli_m2) = 1%Z /\
  create_gif_from_images nofolder_env (cli_call cli_m2) = false.
Proof.
  assert (Hc : create_gif_from_images nofolder_env (cli_call cli_m2) = false).
  { apply (proj2 (proj2 (proj2 (proj2 (C9_exit_status nofolder_env (Parsed cli_m2)))))).
    reflexivity. }
  split; [|exact Hc].
  apply (proj2 (proj1 (proj2 (C9_exit_status nofolder_env (Parsed cli_m2))))).
  exists cli_m2. split; [reflexivity | exact Hc].
Defined.

End CliClaims.

(* ================================================================== *)
(** ** Memory checkpoints *)

Module CheckpointClaims.
Import Pipeline Worlds.

(** C8 (code bug).  The checkpoint sits inside the [try] after the
    frame is appended, so when the hundredth file fails there is no
    reclamation pass and no memory sample: the run never checks memory,
    goes on to the 101st file ["100.png"] and encodes 100 frames, although
    memory is at 90%. *)
Theorem C8_checkpoint_skipped_on_failure :
  gc_passes (trace (fst (run_create bad100_env (args_with None true)))) = 0 /\
  option_map (@List.length frame) (encoder_input bad100_env (args_with None true)) = Some 100 /\
  option_map (existsb (fun f => str_eqb (fr_src f) (path_join folder (nat_name 100))))
             (encoder_input bad100_env (args_with None true)) = Some true.
Proof. split; [|split]; vm_compute; reflexivity. Qed.

End CheckpointClaims.

(* ================================================================== *)
(** ** Numeric sort keys *)

Module SortClaims.
Import Pipeline Worlds.

(** C4 (code bug).  The key joins every [str.isdigit] character and
    passes the result to [int], which raises on ['²']: the sort aborts,
    and the run fails with no frame instead of ordering the files. *)
Theorem C4_superscript_key_raises :
  Order.numeric_key (path_join folder sup_name) = None /\
  snd (run_create sup_env (args_with None true)) = Err SortError /\
  create_gif_from_images sup_env (args_with None true) = false /\
  encoder_input sup_env (args_with None true) = None.
Proof. split; [|split; [|split]]; vm_compute; reflexivity. Qed.

End SortClaims.

(* ================================================================== *)
(** ** [config.py]: reading and updating settings *)

Module ConfigFacts.
Import Config.

Lemma dict_mem_cons k' v d k :
  dict_mem ((k', v) :: d) k = if str_eqb k' k then true else dict_mem d k.
Proof. unfold dict_mem. simpl. destruct (str_eqb k' k); reflexivity. Qed.

Lemma dict_mem_keys (d : dict) (k : pystr) :
  dict_mem d k = existsb (fun k' => str_eqb k' k) (map fst d).
Proof.
  induction d as [|[k' v] d IH]; [reflexivity|].
  rewrite dict_mem_cons. simpl. rewrite IH. destruct (str_eqb k' k); reflexivity.
Qed.

Lemma dict_get_none (d : dict) (k : pystr) : dict_mem d k = false -> dict_get d k = None.
Proof. unfold dict_mem. destruct (dict_get d k); congruence. Qed.

Lemma dict_get_set_same (d : dict) (k : pystr) (v : value) :
  dict_mem d k = true -> dict_get (dict_set d k v) k = Some v.
Proof.
  induction d as [|[k' v'] d IH]; [discriminate|].
  rewrite dict_mem_cons. simpl. destruct (str_eqb k' k) eqn:E.
  - intros _. simpl. rewrite E. reflexivity.
  - intros H. simpl. rewrite E. apply IH, H.
Qed.

Lemma dict_get_set_other (d : dict) (k k2 : pystr) (v : value) :
  k2 <> k -> dict_get (dict_set d k v) k2 = dict_get d k2.
Proof.
  intros Hne. induction d as [|[k' v'] d IH]; [reflexivity|].
  simpl. destruct (str_eqb k' k) eqn:E; simpl.
  - apply StrFacts.str_eqb_spec in E. subst k'.
    destruct (str_eqb k k2) eqn:E2; [apply StrFacts.str_eqb_spec in E2; congruence | reflexivity].
  - rewrite IH. reflexivity.
Qed.

Lemma dict_set_keys (d : dict) (k : pystr) (v : value) : map fst (dict_set d k v) = map fst d.
Proof.
  induction d as [|[k' v'] d IH]; [reflexivity|].
  simpl. destruct (str_eqb k' k); simpl; [reflexivity | rewrite IH; reflexivity].
Qed.

Lemma update_setting_keys (d : dict) (k : pystr) (v : value) :
  map fst (snd (update_setting d k v)) = map fst d.
Proof.
  unfold update_setting. destruct (dict_mem d k); [apply dict_set_keys | reflexivity].
Qed.

(** [update_setting] on a key of the dictionary returns [True]; the key
    then reads back the new value, every other key reads as before, and
    the keys (in order) are unchanged. *)
Theorem update_setting_present (d : dict) (key : pystr) (v default : value) :
  dict_mem d key = true ->
  exists d', update_setting d key v = (true, d') /\
    get_setting d' key default = v /\
    (forall k2, k2 <> key -> get_setting d' k2 default = get_setting d k2 default) /\
    map fst d' = map fst d.
Proof.
  intros H. exists (dict_set d key v). unfold update_setting, get_setting. rewrite H.
  split; [reflexivity|]. split; [rewrite dict_get_set_same by exact H; reflexivity|].
  split; [intros k2 Hk; rewrite dict_get_set_other by exact Hk; reflexivity|].
  apply dict_set_keys.
Qed.

Lemma update_setting_present_witness :
  dict_mem DEFAULT_SETTINGS (lit "max_frames") = true /\
  exists d', update_setting DEFAULT_SETTINGS (lit "max_frames") (VInt 500) = (true, d') /\
    get_setting d' (lit "max_frames") VNone = VInt 500 /\
    (forall k2, k2 <> lit "max_frames" -> get_setting d' k2 VNone = get_setting DEFAULT_SETTINGS k2 VNone) /\
    map fst d' = map fst DEFAULT_SETTINGS.
Proof.
  split; [vm_compute; reflexivity|].
  apply (update_setting_present DEFAULT_SETTINGS (lit "max_frames") (VInt 500) VNone).
  vm_compute. reflexivity.
Defined.

(** [update_setting] never adds a key: on an unknown key it returns
    [False] and leaves the dictionary as it was, so after any sequence of
    updates the keys are those it started with and an unknown key still
    reads as the caller's default. *)
Theorem update_setting_never_adds_keys (d : dict) (us : list (pystr * value)) :
  map fst (update_all d us) = map fst d /\
  (forall key v, dict_mem d key = false -> update_setting d key v = (false, d)) /\
  (forall key default, dict_mem d key = false -> get_setting (update_all d us) key default = default).
Proof.
  assert (Hk : forall d0, map fst (update_all d0 us) = map fst d0).
  { induction us as [|[k v] us IH]; intros d0; [reflexivity|].
    simpl. rewrite IH. apply update_setting_keys. }
  split; [apply Hk|]. split.
  - intros key v H. unfold update_setting. rewrite H. reflexivity.
  - intros key default H. unfold get_setting.
    rewrite dict_get_none; [reflexivity|].
    rewrite dict_mem_keys, Hk, <- dict_mem_keys. exact H.
Qed.

Lemma update_setting_never_adds_keys_witness :
  dict_mem DEFAULT_SETTINGS (lit "theme") = false /\
  update_setting DEFAULT_SETTINGS (lit "theme") (VStr (lit "dark")) = (false, DEFAULT_SETTINGS) /\
  get_setting (update_all DEFAULT_SETTINGS [(lit "theme", VStr (lit "dark")); (lit "max_frames", VInt 10%Z)])
              (lit "theme") VNone = VNone.
Proof.
  assert (Hm : dict_mem DEFAULT_SETTINGS (lit "theme") = false) by (vm_compute; reflexivity).
  destruct (update_setting_never_adds_keys DEFAULT_SETTINGS
              [(lit "theme", VStr (lit "dark")); (lit "max_frames", VInt 10%Z)]) as [_ [H2 H3]].
  split; [exact Hm|]. split; [apply H2, Hm | apply H3, Hm].
Defined.

End ConfigFacts.

(* ================================================================== *)
(** ** Python's string sort *)

Module SortFacts.
Import Order.

Lemma str_ltb_asym (a b : pystr) : str_ltb a b = true -> str_ltb b a = false.
Proof.
  revert b; induction a as [|x a IH]; intros [|y b]; simpl; try congruence.
  destruct (code x <? code y) eqn:E1.
  - intros _. apply Nat.ltb_lt in E1.
    assert (E2 : (code y <? code x) = false) by (apply Nat.ltb_ge; lia).
    rewrite E2. replace (code x <? code y) with true by (symmetry; apply Nat.ltb_lt; lia).
    reflexivity.
  - destruct (code y <? code x) eqn:E2; [discriminate|]. intros H. apply IH, H.
Qed.

Section Generic.
Context {K A : Type} (lt : K -> K -> bool).
Hypothesis lt_asym : forall x y, lt x y = true -> lt y x = false.

Lemma insert_by_perm_gen (x : K * A) (ys : list (K * A)) :
  Permutation (insert_by lt x ys) (x :: ys).
Proof.
  induction ys as [|y ys IH]; simpl; [reflexivity|].
  destruct (lt (fst y) (fst x)); [|reflexivity].
  rewrite IH. apply perm_swap.
Qed.

Lemma sort_by_perm_gen (xs : list (K * A)) : Permutation (sort_by lt xs) xs.
Proof.
  induction xs as [|x xs IH]; simpl; [reflexivity|].
  rewrite insert_by_perm_gen. apply perm_skip, IH.
Qed.

Lemma insert_by_hd_gen (y x : K * A) (ys : list (K * A)) :
  lt (fst x) (fst y) = false ->
  HdRel (fun p q => lt (fst q) (fst p) = false) y ys ->
  HdRel (fun p q => lt (fst q) (fst p) = false) y (insert_by lt x ys).
Proof.
  intros Hyx Hy. destruct ys as [|z ys]; simpl.
  - constructor. exact Hyx.
  - destruct (lt (fst z) (fst x)); constructor; [inversion Hy; assumption | exact Hyx].
Qed.

Lemma insert_by_sorted_gen (x : K * A) (ys : list (K * A)) :
  Sorted (fun p q => lt (fst q) (fst p) = false) ys ->
  Sorted (fun p q => lt (fst q) (fst p) = false) (insert_by lt x ys).
Proof.
  induction ys as [|y ys IH]; intros Hs; simpl.
  - constructor; constructor.
  - inversion Hs as [|? ? Hs' Hhd]; subst.
    destruct (lt (fst y) (fst x)) eqn:E.
    + constructor; [apply IH, Hs'|].
      apply insert_by_hd_gen; [apply lt_asym, E | exact Hhd].
    + constructor; [exact Hs|]. constructor. exact E.
Qed.

Lemma sort_by_sorted_gen (xs : list (K * A)) :
  Sorted (fun p q => lt (fst q) (fst p) = false) (sort_by lt xs).
Proof.
  induction xs as [|x xs IH]; simpl; [constructor|]. apply insert_by_sorted_gen, IH.
Qed.
End Generic.

Lemma sorted_diag (l : list (pystr * pystr)) :
  Forall (fun p => fst p = snd p) l ->
  Sorted (fun p q => str_ltb (fst q) (fst p) = false) l ->
  Sorted (fun a b => str_ltb b a = false) (map snd l).
Proof.
  induction l as [|p l IH]; intros Hd Hs; simpl; [constructor|].
  inversion Hd as [|? ? Hp Hl]; subst. inversion Hs as [|? ? Hs' Hh]; subst.
  constructor; [apply IH; assumption|].
  destruct l as [|q l]; simpl; constructor.
  inversion Hh as [|? ? Hq]; subst. inversion Hl as [|? ? Hq' _]; subst.
  rewrite <- Hp, <- Hq'. exact Hq.
Qed.

Lemma str_sort_spec (files : list pystr) :
  Permutation (map snd (sort_by str_ltb (map (fun f => (f, f)) files))) files /\
  Sorted (fun a b => str_ltb b a = false) (map snd (sort_by str_ltb (map (fun f => (f, f)) files))).
Proof.
  pose proof (sort_by_perm_gen str_ltb (map (fun f => (f, f)) files)) as Hp.
  split.
  - rewrite Hp, map_map. simpl. rewrite map_id. reflexivity.
  - apply sorted_diag; [|apply sort_by_sorted_gen, str_ltb_asym].
    apply (Permutation_Forall (Permutation_sym Hp)).
    apply Forall_forall. intros x Hx. apply in_map_iff in Hx as [f [<- _]]. reflexivity.
Qed.

(** Without [-n]/[sort_numerically], the sort never raises and returns
    the files as a permutation of the input, each no greater (in
    Python's code-point order) than the next. *)
Theorem sort_files_lexicographic (files : list pystr) :
  exists out, sort_files false files = Some out /\
    Permutation out files /\
    Sorted (fun a b => str_ltb b a = false) out.
Proof.
  eexists. split; [reflexivity|]. apply str_sort_spec.
Qed.

End SortFacts.

(* ================================================================== *)
(** ** [get_image_info] *)

Module InfoFacts.
Import Pipeline Info StrFacts.

Lemma last_ext_suffix (s e : pystr) :
  last_ext s = Some e -> List.length e <= List.length s /\ skipn (List.length s - List.length e) s = e.
Proof.
  revert e; induction s as [|c s IH]; intros e H; simpl in H; [discriminate|].
  destruct (last_ext s) as [e'|] eqn:Es.
  - injection H as <-. destruct (IH e' eq_refl) as [H1 H2]. simpl List.length.
    split; [lia|]. replace (S (List.length s) - List.length e') with (S (List.length s - List.length e')) by lia.
    exact H2.
  - destruct (Ascii.eqb c "."%char); [|discriminate]. injection H as <-.
    simpl. rewrite Nat.sub_diag. split; [lia | reflexivity].
Qed.

Lemma rfind_acc_dot (s : pystr) (i : nat) (best : option nat) :
  rfind_acc dot s i best =
  match last_ext s with
  | Some e => Some (i + (List.length s - List.length e))
  | None => best
  end.
Proof.
  revert i best; induction s as [|c s IH]; intros i best; [reflexivity|].
  simpl rfind_acc. rewrite IH. simpl last_ext.
  destruct (last_ext s) as [e|] eqn:Es.
  - destruct (last_ext_suffix s e Es) as [Hl _]. simpl List.length. f_equal. lia.
  - unfold dot. destruct (Ascii.eqb c "."%char); [|reflexivity].
    simpl. f_equal. lia.
Qed.

(** The extension [splitext] returns is empty or the suffix from the last dot. *)
Lemma splitext_snd (p : pystr) : snd (splitext p) = [] \/ last_ext p = Some (snd (splitext p)).
Proof.
  unfold splitext, rfind. rewrite rfind_acc_dot.
  destruct (last_ext p) as [e|] eqn:Ep; [|left; reflexivity].
  destruct (_ <? _)%Z; [|left; reflexivity].
  destruct (existsb _ _); [right | left; reflexivity].
  simpl; destruct (last_ext_suffix p e Ep) as [_ H]; rewrite H; reflexivity.
Qed.

Lemma is_supported_last_ext (file : pystr) :
  Filter.is_supported file = true ->
  exists e, last_ext file = Some e /\ In (py_lower e) Filter.supported_formats.
Proof.
  unfold Filter.is_supported. rewrite existsb_exists. intros [fmt [Hin Hend]].
  destruct (FilterFacts.supported_shape fmt Hin) as [t [-> Ht]].
  apply (endswith_last_ext t) in Hend; [|exact Ht].
  rewrite last_ext_lower in Hend.
  destruct (last_ext file) as [e|]; [|discriminate].
  injection Hend as He. exists e. rewrite He. split; [reflexivity | exact Hin].
Qed.

Lemma existsb_str_eqb (x : pystr) (l : list pystr) : existsb (str_eqb x) l = true <-> In x l.
Proof.
  rewrite existsb_exists. split.
  - intros [y [Hy He]]. apply str_eqb_spec in He. subst. exact Hy.
  - intros H. exists x. split; [exact H | apply str_eqb_spec; reflexivity].
Qed.

Lemma dedup_in (x : pystr) (l : list pystr) : In x (dedup l) <-> In x l.
Proof.
  induction l as [|y l IH]; simpl; [tauto|].
  destruct (existsb (str_eqb y) l) eqn:E.
  - apply existsb_str_eqb in E. rewrite IH. split; [auto|]. intros [<-|H]; auto.
  - simpl. rewrite IH. tauto.
Qed.

Lemma dedup_nodup (l : list pystr) : NoDup (dedup l).
Proof.
  induction l as [|y l IH]; simpl; [constructor|].
  destruct (existsb (str_eqb y) l) eqn:E; [exact IH|].
  constructor; [|exact IH]. rewrite dedup_in. intros H.
  apply existsb_str_eqb in H. congruence.
Qed.

(** [get_image_info] returns [None] exactly when the folder cannot be
    listed.  Otherwise ['count'] is the number of supported names and
    ['files'] lists exactly those bare names, each no greater (in
    Python's code-point order) than the next. *)
Theorem get_image_info_files (env : Env) (image_folder : pystr) :
  (get_image_info env image_folder = None <-> listdir env image_folder = None) /\
  (forall names, listdir env image_folder = Some names ->
     exists i, get_image_info env image_folder = Some i /\
       count i = List.length (info_files i) /\
       Permutation (info_files i) (filter Filter.is_supported names) /\
       Sorted (fun a b => str_ltb b a = false) (info_files i)).
Proof.
  unfold get_image_info. split.
  - destruct (listdir env image_folder); split; congruence.
  - intros names Hl. rewrite Hl. eexists. split; [reflexivity|]. simpl.
    destruct (SortFacts.str_sort_spec (filter Filter.is_supported names)) as [Hp Hs].
    unfold py_sorted. split; [|split; assumption].
    symmetry. apply Permutation_length, Hp.
Qed.

Lemma get_image_info_files_witness :
  listdir Worlds.three_env Worlds.folder = Some (Worlds.png_names 3) /\
  exists i, get_image_info Worlds.three_env Worlds.folder = Some i /\
    count i = List.length (info_files i) /\
    Permutation (info_files i) (filter Filter.is_supported (Worlds.png_names 3)) /\
    Sorted (fun a b => str_ltb b a = false) (info_files i).
Proof.
  split; [reflexivity|].
  apply (proj2 (get_image_info_files Worlds.three_env Worlds.folder)). reflexivity.
Defined.

(** ['formats'] has no duplicates and holds exactly the lower-cased
    [os.path.splitext] extensions of the supported names.  Each is one of
    the supported extensions or the empty string: [splitext] gives no
    extension to a name such as [.png], which the filter accepts. *)
Theorem get_image_info_formats (env : Env) (image_folder : pystr) (i : image_info) :
  get_image_info env image_folder = Some i ->
  NoDup (formats i) /\
  (forall e, In e (formats i) <->
     exists names g, listdir env image_folder = Some names /\ In g names /\
       Filter.is_supported g = true /\ e = py_lower (snd (splitext g))) /\
  (forall e, In e (formats i) -> e = [] \/ In e Filter.supported_formats) /\
  (exists g, Filter.is_supported g = true /\ snd (splitext g) = []).
Proof.
  unfold get_image_info. destruct (listdir env image_folder) as [names|] eqn:Hl; [|discriminate].
  intros H. injection H as <-. simpl.
  split; [apply dedup_nodup|].
  split; [|split].
  - intros e. rewrite dedup_in, in_map_iff. split.
    + intros [g [He Hg]]. apply filter_In in Hg as [Hg Hs]. exists names, g. auto.
    + intros [names' [g [Hn [Hg [Hs He]]]]]. injection Hn as <-.
      exists g. split; [symmetry; exact He | apply filter_In; auto].
  - intros e. rewrite dedup_in, in_map_iff. intros [g [<- Hg]].
    apply filter_In in Hg as [_ Hs].
    destruct (is_supported_last_ext g Hs) as [e [He Hin]].
    destruct (splitext_snd g) as [H0|H1]; [left; rewrite H0; reflexivity|].
    right. rewrite He in H1. injection H1 as <-. exact Hin.
  - exists (lit ".png"). split; vm_compute; reflexivity.
Qed.

Lemma get_image_info_formats_witness :
  exists i, get_image_info Worlds.three_env Worlds.folder = Some i /\
  NoDup (formats i) /\
  (forall e, In e (formats i) <->
     exists names g, listdir Worlds.three_env Worlds.folder = Some names /\ In g names /\
       Filter.is_supported g = true /\ e = py_lower (snd (splitext g))) /\
  (forall e, In e (formats i) -> e = [] \/ In e Filter.supported_formats) /\
  (exists g, Filter.is_supported g = true /\ snd (splitext g) = []).
Proof.
  eexists. split; [reflexivity|].
  apply (get_image_info_formats Worlds.three_env Worlds.folder). reflexivity.
Defined.

End InfoFacts.

(* ================================================================== *)
(** ** File names and the numeric key *)

Module PathFacts.
Import Order.

Lemma basename_acc_free (cur b : pystr) : ~ In slash b -> basename_acc cur b = rev cur ++ b.
Proof.
  revert cur; induction b as [|c b IH]; intros cur Hb; simpl; [symmetry; apply app_nil_r|].
  destruct (Ascii.eqb c slash) eqn:E.
  - apply Ascii.eqb_eq in E. subst. exfalso. apply Hb. left. reflexivity.
  - rewrite IH by (intros H; apply Hb; right; exact H). simpl. rewrite <- app_assoc. reflexivity.
Qed.

Lemma basename_acc_app (cur x b : pystr) :
  ~ In slash b -> basename_acc cur (x ++ slash :: b) = b.
Proof.
  revert cur; induction x as [|c x IH]; intros cur Hb; simpl.
  - rewrite basename_acc_free by exact Hb. reflexivity.
  - destruct (Ascii.eqb c slash); apply IH, Hb.
Qed.

Lemma rev_cons_app (a r : pystr) (l : ascii) : rev a = l :: r -> a = rev r ++ [l].
Proof. intros H. rewrite <- (rev_involutive a), H. reflexivity. Qed.

Lemma basename_path_join (a b : pystr) : ~ In slash b -> basename (path_join a b) = b.
Proof.
  intros Hb. unfold basename.
  assert (Hj : basename_acc []
                 match rev a with
                 | [] => b
                 | l :: _ => if Ascii.eqb l slash then a ++ b else a ++ [slash] ++ b
                 end = b).
  { destruct (rev a) as [|l r] eqn:Ea.
    - rewrite basename_acc_free by exact Hb. reflexivity.
    - rewrite (rev_cons_app a r l Ea). destruct (Ascii.eqb l slash) eqn:El.
      + apply Ascii.eqb_eq in El. subst l. rewrite <- app_assoc. apply basename_acc_app, Hb.
      + rewrite <- app_assoc, app_assoc. apply basename_acc_app, Hb. }
  unfold path_join. destruct b as [|c b'].
  - exact Hj.
  - destruct (Ascii.eqb c slash) eqn:Ec.
    + apply Ascii.eqb_eq in Ec. subst. exfalso. apply Hb. left. reflexivity.
    + exact Hj.
Qed.

Lemma numeric_key_join (image_folder name : pystr) :
  ~ In slash name -> numeric_key (path_join image_folder name) = numeric_key name.
Proof.
  intros H. unfold numeric_key. rewrite basename_path_join by exact H.
  unfold basename. rewrite basename_acc_free by exact H. reflexivity.
Qed.

(** The numeric key of a listed file depends only on its name: digits in
    the folder path [os.path.join] puts in front never count. *)
Theorem numeric_key_ignores_folder (image_folder name : pystr) :
  ~ In slash name -> numeric_key (path_join image_folder name) = numeric_key name.
Proof. apply numeric_key_join. Qed.

Lemma numeric_key_ignores_folder_witness :
  numeric_key (path_join (lit "shots2024/") (lit "frame7.png")) = Some 7%Z.
Proof.
  rewrite (numeric_key_ignores_folder (lit "shots2024/") (lit "frame7.png")).
  - vm_compute. reflexivity.
  - simpl. intuition discriminate.
Defined.

End PathFacts.

(* ================================================================== *)
(** ** Run-level facts *)

Module RunExtra.
Import Pipeline LoopFacts RunFacts PipelineInv.

Lemma prepare_base env a s0 r :
  prepare env a init_st = (s0, r) -> base_size s0 = None.
Proof.
  intros H. unfold prepare, select_files, bind, ret, raise, emit, lift_opt in H.
  split_prep H; injection H as <- _; reflexivity.
Qed.

(** Every run either fails without calling the encoder, or reaches the
    encoder call with the non-empty buffer the loop left. *)
Lemma run_shape env a :
  (exists e s, run_create env a = (s, Err e) /\ saved_frames (trace s) = None) \/
  (exists s0 files s1 f l,
     prepare env a init_st = (s0, Ok files) /\
     process_files env 0 files s0 = (s1, Ok tt) /\
     images s1 = f :: l /\ saved_frames (trace s1) = None /\
     run_create env a = save_gif env a f l s1).
Proof.
  rewrite run_create_eq.
  destruct (prepare env a init_st) as [s0 r] eqn:Hp.
  destruct (prepare_facts env a s0 r Hp) as [_ [Hsv0 _]].
  destruct r as [files|e]; [|left; exists e, s0; auto].
  destruct (process_files_spec env 0 files s0) as [s1 [k [new [Hrun [_ [_ [Hs _]]]]]]].
  rewrite Hrun. simpl fst. unfold finish.
  destruct (images s1) as [|f l] eqn:Ei.
  - left. exists NoFramesProcessed, s1. split; [reflexivity | congruence].
  - right. exists s0, files, s1, f, l. repeat split; auto. congruence.
Qed.

Lemma save_gif_trace env a f l s1 :
  saved_frames (trace s1) = None ->
  saved_frames (trace (fst (save_gif env a f l s1))) = Some (f :: l) /\
  snd (save_gif env a f l s1) = (if save_ok env then Ok tt else Err EncodeError).
Proof.
  intros H. unfold save_gif, bind, emit.
  destruct (save_ok env); simpl; (split; [apply saved_frames_app_save, H | reflexivity]).
Qed.

(** [create_gif_from_images] returns [True] exactly when the encoder was
    called and saving succeeded; the encoder always receives at least one
    frame. *)
Theorem create_true_iff_saved (env : Env) (a : Args) :
  (create_gif_from_images env a = true <->
     exists fs, encoder_input env a = Some fs /\ save_ok env = true) /\
  (forall fs, encoder_input env a = Some fs -> fs <> []).
Proof.
  unfold create_gif_from_images, encoder_input.
  destruct (run_shape env a) as [[e [s [Hr Hs]]]|[s0 [files [s1 [f [l [_ [_ [_ [Hs Hr]]]]]]]]]];
    rewrite Hr.
  - simpl. rewrite Hs. split; [split; [discriminate | intros [fs [H _]]; discriminate]|].
    intros fs H. discriminate.
  - destruct (save_gif_trace env a f l s1 Hs) as [Ht Hres].
    destruct (save_gif env a f l s1) as [s2 r]. simpl in Ht, Hres |- *. rewrite Ht.
    split; [|intros fs H; injection H as <-; discriminate].
    rewrite Hres. destruct (save_ok env); split.
    + intros _. exists (f :: l). auto.
    + reflexivity.
    + discriminate.
    + intros [fs [_ H]]. discriminate.
Qed.

(** With the supported names of a folder none, the run fails with
    [NoSupportedFiles] right after listing the folder: no file is opened,
    and [create_gif_from_images] returns [False]. *)
Theorem no_supported_files (env : Env) (a : Args) (names : list pystr) :
  psutil_ok env = true ->
  listdir env (image_folder a) = Some names ->
  filter Filter.is_supported names = [] ->
  run_create env a = (mk_st [EvMemInfo; EvListdir (image_folder a)] [] None 0, Err NoSupportedFiles) /\
  create_gif_from_images env a = false.
Proof.
  intros Hps Hls Hf.
  assert (H : run_create env a =
              (mk_st [EvMemInfo; EvListdir (image_folder a)] [] None 0, Err NoSupportedFiles)).
  { rewrite run_create_eq.
    unfold prepare, select_files, bind, ret, raise, emit, lift_opt.
    rewrite Hps. cbn -[Order.sort_files Filter.is_supported path_join effective_max_frames truncate].
    rewrite Hls. cbn -[Order.sort_files Filter.is_supported path_join effective_max_frames truncate].
    rewrite Hf. reflexivity. }
  split; [exact H|]. unfold create_gif_from_images. rewrite H. reflexivity.
Qed.

Lemma no_supported_files_witness :
  run_create ExtraWorlds.text_env (Worlds.args_with None true) =
    (mk_st [EvMemInfo; EvListdir Worlds.folder] [] None 0, Err NoSupportedFiles) /\
  create_gif_from_images ExtraWorlds.text_env (Worlds.args_with None true) = false.
Proof.
  apply (no_supported_files ExtraWorlds.text_env (Worlds.args_with None true)
           [lit "notes.txt"; lit "clip.gif"]); vm_compute; reflexivity.
Defined.

Lemma truncate_slice_eq {A : Type} (m : Z) (l : list A) : truncate m l = py_slice_to m l.
Proof.
  unfold truncate, py_slice_to.
  destruct (Z.of_nat (List.length l) >? m)%Z eqn:E; [reflexivity|].
  rewrite Z.gtb_ltb, Z.ltb_ge in E.
  replace (0 <=? m)%Z with true by (symmetry; apply Z.leb_le; lia).
  symmetry. apply firstn_all2. lia.
Qed.

(** The length guard of lines 72-75 has no effect: the list handed to
    the loop is the slice [image_files[:max_frames]] in every case, and a
    negative [max_frames] drops the last [|max_frames|] files. *)
Theorem truncate_is_slice {A : Type} (m : Z) (l : list A) :
  truncate m l = py_slice_to m l /\
  ((m < 0)%Z -> truncate m l = firstn (List.length l - Z.to_nat (- m)) l).
Proof.
  split; [apply truncate_slice_eq|]. intros Hm. rewrite truncate_slice_eq. unfold py_slice_to.
  replace (0 <=? m)%Z with false by (symmetry; apply Z.leb_gt; lia).
  f_equal. lia.
Qed.

Lemma truncate_is_slice_witness :
  truncate (-1)%Z [1; 2; 3] = py_slice_to (-1)%Z [1; 2; 3] /\ truncate (-1)%Z [1; 2; 3] = [1; 2].
Proof.
  destruct (truncate_is_slice (-1)%Z [1; 2; 3]) as [H1 H2].
  split; [exact H1|]. rewrite H2 by lia. reflexivity.
Defined.

Lemma sublist_length {A : Type} (l1 l2 : list A) : sublist l1 l2 -> List.length l1 <= List.length l2.
Proof. induction 1; simpl; lia. Qed.

Lemma encoder_input_loop env a fs :
  encoder_input env a = Some fs ->
  exists s0 files k,
    prepare env a init_st = (s0, Ok files) /\
    sublist (map fr_src fs) (firstn k files).
Proof.
  unfold encoder_input. rewrite run_create_eq.
  destruct (prepare env a init_st) as [s0 r] eqn:Hp.
  destruct (prepare_facts env a s0 r Hp) as [Hi0 [Hsv0 _]].
  destruct r as [files|e]; [|simpl; rewrite Hsv0; discriminate].
  destruct (process_files_spec env 0 files s0)
    as [s1 [k [new [Hrun [Hi [Hsub [Hs _]]]]]]].
  rewrite Hrun. simpl fst. unfold finish.
  rewrite Hi0 in Hi. simpl in Hi.
  destruct (images s1) as [|f l] eqn:Ei; [simpl; rewrite Hs, Hsv0; discriminate|].
  intros H. destruct (save_gif_trace env a f l s1 (eq_trans Hs Hsv0)) as [Ht _].
  rewrite Ht in H. injection H as <-. exists s0, files, k. split; [reflexivity|].
  rewrite Hi. exact Hsub.
Qed.

(** The encoder never receives more frames than the frame budget, when
    the budget is not negative. *)
Theorem encoder_input_within_budget (env : Env) (a : Args) (fs : list frame) :
  encoder_input env a = Some fs ->
  (0 <= effective_max_frames env a)%Z ->
  List.length fs <= Z.to_nat (effective_max_frames env a).
Proof.
  intros H Hm. destruct (encoder_input_loop env a fs H) as [s0 [files [k [Hp Hsub]]]].
  destruct (prepare_ok env a s0 files Hp) as [names [sorted [_ [_ Hf]]]].
  apply sublist_length in Hsub. rewrite length_map, length_firstn in Hsub.
  assert (Hl : List.length files <= Z.to_nat (effective_max_frames env a)).
  { rewrite Hf, truncate_slice_eq. unfold py_slice_to.
    replace (0 <=? effective_max_frames env a)%Z with true by (symmetry; apply Z.leb_le; lia).
    rewrite length_firstn. lia. }
  lia.
Qed.

Lemma encoder_input_within_budget_witness :
  option_map (@List.length frame) (encoder_input Worlds.ten_env (Worlds.args_with (Some 4%Z) true)) = Some 4 /\
  List.length (match encoder_input Worlds.ten_env (Worlds.args_with (Some 4%Z) true) with
               | Some fs => fs | None => [] end)
    <= Z.to_nat (effective_max_frames Worlds.ten_env (Worlds.args_with (Some 4%Z) true)).
Proof.
  split; [vm_compute; reflexivity|].
  apply encoder_input_within_budget; vm_compute; [reflexivity | discriminate].
Defined.

End RunExtra.

(* ================================================================== *)
(** ** Frame sizes *)

Module SizeExtra.
Import Pipeline LoopFacts RunFacts PipelineInv RunExtra.

Lemma file_step_inv env i p s s1 r :
  file_step env i p s = (s1, r) -> size_inv env s ->
  size_inv env s1 /\ (forall b, base_size s = Some b -> base_size s1 = Some b).
Proof.
  intros H Hinv. unfold_m. split_m H.
  all: injection H as <- _; unfold size_inv in *; cbn -[Nat.modulo batch_size first_base] in Hinv |- *.
  all: try (split; [|intros b Hb; congruence]).
  all: try exact Hinv.
  all: match goal with E : base_size _ = _ |- _ => rewrite E in Hinv | _ => idtac end.
  all: try exact Hinv.
  all: first
    [ match goal with Hi : images _ = [] |- _ =>
        rewrite Hi; cbn -[first_base];
        (split; [eexists _, _; split; [eassumption | reflexivity] |]);
        [exact I || (split; [constructor | right; assumption])] end
    | destruct Hinv as [Hex Hm]; split; [exact Hex|];
      match goal with |- context[images ?st] => destruct (images st) as [|f rest] end;
      cbn in Hm |- *;
      [ split; [constructor | left; reflexivity]
      | destruct Hm as [Hf Hfirst];
        split; [apply Forall_app; split; [exact Hf | repeat constructor] | exact Hfirst]] ].
Qed.

(** The batch loop keeps the invariant, and never changes a base size
    once one is set. *)
Lemma process_files_inv env i files s :
  size_inv env s ->
  size_inv env (fst (process_files env i files s)) /\
  (forall b, base_size s = Some b -> base_size (fst (process_files env i files s)) = Some b).
Proof.
  revert i s. induction files as [|p rest IH]; intros i s Hinv; [simpl; auto|].
  assert (Eq : process_files env i (p :: rest) s =
               match file_step env i p s with
               | (s1, Ok Break) => (s1, Ok tt)
               | (s1, _) => process_files env (S i) rest s1
               end).
  { cbn [process_files]. unfold bind at 1, catch.
    destruct (file_step env i p s) as [s1 [[]|e]]; reflexivity. }
  rewrite Eq.
  destruct (file_step env i p s) as [s1 [c|e]] eqn:Hf;
    destruct (file_step_inv env i p s s1 _ Hf Hinv) as [Hinv1 Hb1].
  - destruct c.
    + destruct (IH (S i) s1 Hinv1) as [H1 H2]. split; [exact H1 | intros b Hb; apply H2, Hb1, Hb].
    + split; [exact Hinv1 | exact Hb1].
  - destruct (IH (S i) s1 Hinv1) as [H1 H2].
    split; [exact H1 | intros b Hb; apply H2, Hb1, Hb].
Qed.

(** Every frame the encoder receives after the first has one common
    size, the base size that lines 96-103 compute (in float arithmetic)
    from the decoded size of a decodable file; the first frame has that
    size too or keeps its own decoded size. *)
Theorem encoder_frame_sizes (env : Env) (a : Args) (f : frame) (rest : list frame) :
  encoder_input env a = Some (f :: rest) ->
  exists p sz, open_image env p = Some sz /\
    Forall (fun g => fr_size g = first_base sz) rest /\
    (fr_size f = first_base sz \/ open_image env (fr_src f) = Some (fr_size f)).
Proof.
  unfold encoder_input.
  destruct (run_shape env a) as [[e [s [Hr Hs]]]|[s0 [files [s1 [f0 [l [Hp [Hrun [Ei [Hs Hr]]]]]]]]]];
    rewrite Hr; [simpl; rewrite Hs; discriminate|].
  rewrite (proj1 (save_gif_trace env a f0 l s1 Hs)). intros H. injection H as -> ->.
  assert (H0 : size_inv env s0).
  { unfold size_inv. rewrite (prepare_base env a s0 _ Hp). exact (proj1 (prepare_facts env a s0 _ Hp)). }
  pose proof (proj1 (process_files_inv env 0 files s0 H0)) as H1. rewrite Hrun in H1. simpl in H1.
  unfold size_inv in H1. rewrite Ei in H1.
  destruct (base_size s1) as [b|]; [|discriminate].
  destruct H1 as [[p [sz [Ho ->]]] Hm]. exists p, sz. split; [exact Ho | exact Hm].
Qed.

Lemma encoder_frame_sizes_witness :
  encoder_input ExtraWorlds.wide_first_env (Worlds.args_with None true) =
    Some [mk_frame (path_join Worlds.folder (Worlds.nat_name 0)) (2148, 1080)%Z;
          mk_frame (path_join Worlds.folder (Worlds.nat_name 1)) (1919, 965)%Z;
          mk_frame (path_join Worlds.folder (Worlds.nat_name 2)) (1919, 965)%Z] /\
  exists p sz, open_image ExtraWorlds.wide_first_env p = Some sz /\
    Forall (fun g => fr_size g = first_base sz)
      [mk_frame (path_join Worlds.folder (Worlds.nat_name 1)) (1919, 965)%Z;
       mk_frame (path_join Worlds.folder (Worlds.nat_name 2)) (1919, 965)%Z] /\
    (fr_size (mk_frame (path_join Worlds.folder (Worlds.nat_name 0)) (2148, 1080)%Z) = first_base sz \/
     open_image ExtraWorlds.wide_first_env (path_join Worlds.folder (Worlds.nat_name 0)) =
       Some (2148, 1080)%Z).
Proof.
  assert (H : encoder_input ExtraWorlds.wide_first_env (Worlds.args_with None true) =
    Some [mk_frame (path_join Worlds.folder (Worlds.nat_name 0)) (2148, 1080)%Z;
          mk_frame (path_join Worlds.folder (Worlds.nat_name 1)) (1919, 965)%Z;
          mk_frame (path_join Worlds.folder (Worlds.nat_name 2)) (1919, 965)%Z])
    by (vm_compute; reflexivity).
  split; [exact H|]. exact (encoder_frame_sizes _ _ _ _ H).
Defined.

End SizeExtra.

(* ================================================================== *)
(** ** [create_test_images] and the GIF maker *)

Module TestImagesFacts.
Import Order TestImages StrFacts PathFacts.

Lemma chr_digit (d : nat) :
  d < 10 ->
  py_decimal (chr (48 + d)) = Some (Z.of_nat d) /\ py_isdigit (chr (48 + d)) = true /\
  py_lower_char (chr (48 + d)) = chr (48 + d).
Proof.
  intros Hd. do 10 (destruct d as [|d]; [vm_compute; repeat split; reflexivity|]). lia.
Qed.

Lemma str_nat_aux_app (fuel n : nat) (acc : pystr) :
  str_nat_aux fuel n acc = str_nat_aux fuel n [] ++ acc.
Proof.
  revert n acc; induction fuel as [|f IH]; intros n acc; [reflexivity|].
  simpl. destruct (n <? 10); [reflexivity|].
  rewrite IH, (IH _ [_]), <- app_assoc. reflexivity.
Qed.

Lemma py_int_acc_app (a : Z) (x y : pystr) :
  py_int_acc a (x ++ y) = match py_int_acc a x with Some v => py_int_acc v y | None => None end.
Proof.
  revert a; induction x as [|c x IH]; intros a; [reflexivity|].
  simpl. destruct (py_decimal c); [apply IH | reflexivity].
Qed.

Lemma str_nat_aux_spec (fuel n : nat) (a : Z) :
  n < fuel ->
  py_int_acc a (str_nat_aux fuel n []) =
    Some (a * 10 ^ Z.of_nat (List.length (str_nat_aux fuel n [])) + Z.of_nat n)%Z /\
  Forall (fun c => py_isdigit c = true /\ py_lower_char c = c) (str_nat_aux fuel n []) /\
  str_nat_aux fuel n [] <> [].
Proof.
  revert n a; induction fuel as [|f IH]; intros n a Hn; [lia|].
  pose proof (Nat.mod_upper_bound n 10 ltac:(lia)) as Hr.
  destruct (chr_digit (Nat.modulo n 10) Hr) as [Hd [Hdig Hlow]].
  cbn [str_nat_aux]. destruct (n <? 10) eqn:E.
  - apply Nat.ltb_lt in E. rewrite Nat.mod_small in Hd, Hdig, Hlow |- * by exact E.
    cbn [py_int_acc]. rewrite Hd. split; [cbn [List.length]; f_equal; lia|]. split; [repeat constructor; assumption | discriminate].
  - apply Nat.ltb_ge in E.
    destruct (IH (Nat.div n 10) a) as [Hv [Hf Hne]]; [apply Nat.lt_le_trans with n; [apply Nat.div_lt; lia | lia]|].
    rewrite str_nat_aux_app. split; [|split].
    + rewrite py_int_acc_app, Hv. cbn [py_int_acc]. rewrite Hd. f_equal.
      rewrite length_app. cbn [List.length].
      pose proof (Nat.div_mod_eq n 10) as Hdm.
      assert (Hz : Z.of_nat n = (10 * Z.of_nat (Nat.div n 10) + Z.of_nat (Nat.modulo n 10))%Z) by lia.
      rewrite Hz, Nat2Z.inj_add, Z.pow_add_r by lia. rewrite Z.pow_1_r. lia.
    + apply Forall_app. split; [exact Hf | repeat constructor; assumption].
    + destruct (str_nat_aux f (Nat.div n 10) []); [contradiction | discriminate].
Qed.

Lemma py_int_acc_zeros (k : nat) : py_int_acc 0 (repeat "0"%char k) = Some 0%Z.
Proof. induction k as [|k IH]; [reflexivity|]. exact IH. Qed.

(** [int(f"{n:03d}") == n], and the padded number is made of digits. *)
Lemma fmt_03d_spec (n : nat) :
  py_int (fmt_03d n) = Some (Z.of_nat n) /\
  Forall (fun c => py_isdigit c = true /\ py_lower_char c = c) (fmt_03d n) /\ fmt_03d n <> [].
Proof.
  destruct (str_nat_aux_spec (S n) n 0 ltac:(lia)) as [Hv [Hf Hne]].
  unfold fmt_03d, py_str_nat.
  assert (Hne' : repeat "0"%char (3 - List.length (str_nat_aux (S n) n [])) ++ str_nat_aux (S n) n [] <> []).
  { destruct (repeat _ _); [exact Hne | discriminate]. }
  split; [|split; [|exact Hne']].
  - unfold py_int. destruct (repeat _ _ ++ _) as [|c s] eqn:Es; [contradiction|].
    rewrite <- Es, py_int_acc_app, py_int_acc_zeros, Hv. f_equal; lia.
  - apply Forall_app. split; [|exact Hf].
    apply Forall_forall. intros c Hc. apply repeat_spec in Hc. subst. split; reflexivity.
Qed.

Lemma filter_all {A : Type} (f : A -> bool) (l : list A) :
  Forall (fun x => f x = true) l -> filter f l = l.
Proof. induction 1; simpl; [reflexivity|]. rewrite H, IHForall. reflexivity. Qed.

Lemma test_filename_no_slash (i : nat) : ~ In slash (test_filename i).
Proof.
  unfold test_filename. destruct (fmt_03d_spec (i + 1)) as [_ [Hf _]].
  rewrite !in_app_iff. intros [H|[H|H]].
  - simpl in H. intuition discriminate.
  - rewrite Forall_forall in Hf. destruct (Hf _ H) as [Hd _]. discriminate.
  - simpl in H. intuition discriminate.
Qed.

Lemma test_filename_key (image_folder : pystr) (i : nat) :
  numeric_key (path_join image_folder (test_filename i)) = Some (Z.of_nat (i + 1)).
Proof.
  rewrite numeric_key_join by apply test_filename_no_slash.
  destruct (fmt_03d_spec (i + 1)) as [Hv [Hf Hne]].
  unfold numeric_key, basename. rewrite basename_acc_free by apply test_filename_no_slash.
  simpl rev. rewrite app_nil_l. unfold test_filename. rewrite !filter_app.
  rewrite (filter_all py_isdigit (fmt_03d (i + 1))) by (eapply Forall_impl; [|exact Hf]; intros c [Hc _]; exact Hc).
  replace (filter py_isdigit (lit "frame_")) with (@nil ascii) by reflexivity.
  replace (filter py_isdigit (lit ".jpg")) with (@nil ascii) by reflexivity.
  rewrite app_nil_l, app_nil_r.
  destruct (fmt_03d (i + 1)) as [|c l]; [contradiction | exact Hv].
Qed.

Lemma endswith_app (x suf : pystr) : endswith (x ++ suf) suf = true.
Proof.
  unfold endswith. rewrite length_app.
  replace (List.length suf <=? List.length x + List.length suf) with true by (symmetry; apply Nat.leb_le; lia).
  replace (List.length x + List.length suf - List.length suf) with (List.length x) by lia.
  rewrite skipn_app, skipn_all, Nat.sub_diag. simpl. apply str_eqb_spec. reflexivity.
Qed.

Lemma test_filename_supported (i : nat) : Filter.is_supported (test_filename i) = true.
Proof.
  destruct (fmt_03d_spec (i + 1)) as [_ [Hf _]].
  assert (Hl : py_lower (test_filename i) = test_filename i).
  { assert (Hm : map py_lower_char (fmt_03d (i + 1)) = fmt_03d (i + 1)).
    { induction Hf as [|c l [_ Hc] _ IH]; [reflexivity|]. simpl. rewrite Hc, IH. reflexivity. }
    unfold test_filename, py_lower. rewrite !map_app, Hm. reflexivity. }
  unfold Filter.is_supported, Filter.supported_formats. cbn [map existsb].
  rewrite Hl. unfold test_filename. rewrite app_assoc, endswith_app. reflexivity.
Qed.

(** Every file [create_test_images] writes, [frame_{i+1:03d}.jpg], is
    accepted by the GIF maker's format filter, and its numeric sort key
    is [i + 1], whatever the folder; the name has no ['/']. *)
Theorem test_images_accepted_keyed (image_folder : pystr) (i : nat) :
  Filter.is_supported (test_filename i) = true /\
  numeric_key (path_join image_folder (test_filename i)) = Some (Z.of_nat (i + 1)) /\
  ~ In slash (test_filename i).
Proof.
  split; [apply test_filename_supported|]. split; [apply test_filename_key | apply test_filename_no_slash].
Qed.

Lemma keys_of_total (kf : pystr -> Z) (xs : list pystr) :
  (forall x, In x xs -> numeric_key x = Some (kf x)) ->
  keys_of numeric_key xs = Some (map (fun x => (kf x, x)) xs).
Proof.
  induction xs as [|x xs IH]; intros H; [reflexivity|].
  simpl. rewrite (H x (or_introl eq_refl)), IH; [reflexivity|].
  intros y Hy. apply H. right. exact Hy.
Qed.

Lemma strongly_sorted_perm_unique {A : Type} (l1 l2 : list (Z * A)) :
  StronglySorted key_le l1 -> StronglySorted (fun x y => (fst x < fst y)%Z) l2 ->
  Permutation l1 l2 -> l1 = l2.
Proof.
  revert l2; induction l1 as [|x l1 IH]; intros l2 H1 H2 Hp.
  - symmetry. apply Permutation_nil, Hp.
  - destruct l2 as [|y l2]; [apply Permutation_sym, Permutation_nil in Hp; discriminate|].
    inversion H1 as [|? ? H1' Hx]; subst. inversion H2 as [|? ? H2' Hy]; subst.
    assert (Exy : x = y).
    { assert (Hin1 : In x (y :: l2)) by (apply (Permutation_in x Hp); left; reflexivity).
      assert (Hin2 : In y (x :: l1)) by (apply (Permutation_in y (Permutation_sym Hp)); left; reflexivity).
      destruct Hin1 as [<-|Hin1]; [reflexivity|]. destruct Hin2 as [->|Hin2]; [reflexivity|].
      rewrite Forall_forall in Hx, Hy. specialize (Hx y Hin2). specialize (Hy x Hin1).
      unfold key_le in Hx. lia. }
    subst y. f_equal. apply IH; [exact H1' | exact H2' | apply Permutation_cons_inv with x; exact Hp].
Qed.

Lemma sorted_seq_keys {A : Type} (g : nat -> A) (s n : nat) :
  Sorted (fun x y => (fst x < fst y)%Z) (map (fun i => (Z.of_nat (i + 1), g i)) (seq s n)).
Proof.
  revert s; induction n as [|n IH]; intros s; simpl; [constructor|].
  constructor; [apply IH|]. destruct n; simpl; constructor. simpl. lia.
Qed.

(** The numeric sort puts the files of [create_test_images], listed in
    any order, back in creation order. *)
Lemma sort_test_names (image_folder : pystr) (count : nat) (names : list pystr) :
  Permutation names (test_filenames count) ->
  sort_files true (map (path_join image_folder) names) =
    Some (map (path_join image_folder) (test_filenames count)).
Proof.
  intros Hp.
  set (kf := fun x => match numeric_key x with Some z => z | None => 0%Z end).
  assert (Hk : forall x, In x (map (path_join image_folder) (test_filenames count)) ->
                         numeric_key x = Some (kf x)).
  { intros x Hx. apply in_map_iff in Hx as [n [<- Hn]]. unfold test_filenames in Hn.
    apply in_map_iff in Hn as [i [<- _]]. unfold kf. rewrite test_filename_key. reflexivity. }
  assert (Hpm : Permutation (map (path_join image_folder) names)
                            (map (path_join image_folder) (test_filenames count)))
    by (apply Permutation_map, Hp).
  assert (Hks : keys_of numeric_key (map (path_join image_folder) names) =
                Some (map (fun x => (kf x, x)) (map (path_join image_folder) names))).
  { apply keys_of_total. intros x Hx. apply Hk. apply (Permutation_in x Hpm Hx). }
  destruct (OrderFacts.sort_files_numeric_spec _ _ Hks) as [Hsort [_ [Hsorted _]]].
  rewrite Hsort. f_equal.
  set (t := map (fun x => (kf x, x)) (map (path_join image_folder) (test_filenames count))).
  assert (Ht : t = map (fun i => (Z.of_nat (i + 1), path_join image_folder (test_filename i))) (seq 0 count)).
  { unfold t, test_filenames. rewrite !map_map. apply map_ext. intros i.
    unfold kf. rewrite test_filename_key. reflexivity. }
  assert (He : sort_by Z.ltb (map (fun x => (kf x, x)) (map (path_join image_folder) names)) = t).
  { apply strongly_sorted_perm_unique.
    - apply Sorted_StronglySorted; [intros x y z; unfold key_le; lia | exact Hsorted].
    - rewrite Ht. apply Sorted_StronglySorted; [intros x y z; lia | apply sorted_seq_keys].
    - rewrite OrderFacts.sort_by_perm. unfold t. apply Permutation_map, Hpm. }
  rewrite He. unfold t. rewrite map_map. simpl. apply map_id.
Qed.

Lemma truncate_short {A : Type} (m : Z) (l : list A) :
  (Z.of_nat (List.length l) <= m)%Z -> Pipeline.truncate m l = l.
Proof.
  intros H. unfold Pipeline.truncate.
  replace (Z.of_nat (List.length l) >? m)%Z with false by (symmetry; rewrite Z.gtb_ltb; apply Z.ltb_ge; lia).
  reflexivity.
Qed.

(** A folder holding exactly the [count] files of
    [create_test_images(folder, count)], listed by [os.listdir] in any
    order, is handed to the batch loop in creation order
    ([frame_001.jpg], [frame_002.jpg], ...) under the numeric sort, when
    the frame budget covers [count]; nothing is opened before. *)
Theorem test_images_read_in_creation_order (env : Pipeline.Env) (a : Pipeline.Args)
    (count : nat) (names : list pystr) :
  Pipeline.psutil_ok env = true ->
  Pipeline.sort_numerically a = true ->
  Pipeline.listdir env (Pipeline.image_folder a) = Some names ->
  Permutation names (test_filenames count) ->
  0 < count ->
  (Z.of_nat count <= Pipeline.effective_max_frames env a)%Z ->
  Pipeline.prepare env a Pipeline.init_st =
    (Pipeline.mk_st [Pipeline.EvMemInfo; Pipeline.EvListdir (Pipeline.image_folder a)] [] None 0,
     Pipeline.Ok (map (path_join (Pipeline.image_folder a)) (test_filenames count))).
Proof.
  intros Hps Hsn Hls Hp Hc Hm.
  assert (Hf : filter Filter.is_supported names = names).
  { apply filter_all. apply (Permutation_Forall (Permutation_sym Hp)).
    apply Forall_forall. intros x Hx. unfold test_filenames in Hx.
    apply in_map_iff in Hx as [i [<- _]]. apply test_filename_supported. }
  pose proof (sort_test_names (Pipeline.image_folder a) count names Hp) as Hs.
  unfold Pipeline.prepare, Pipeline.select_files, Pipeline.bind, Pipeline.ret, Pipeline.raise,
         Pipeline.emit, Pipeline.lift_opt.
  rewrite Hps. cbn -[Order.sort_files Filter.is_supported path_join Pipeline.effective_max_frames Pipeline.truncate].
  rewrite Hls. cbn -[Order.sort_files Filter.is_supported path_join Pipeline.effective_max_frames Pipeline.truncate].
  rewrite Hf, Hsn, Hs.
  destruct names as [|n0 ns]; [apply Permutation_nil in Hp; destruct count; [lia | discriminate]|].
  cbn -[Order.sort_files Filter.is_supported path_join Pipeline.effective_max_frames Pipeline.truncate].
  rewrite truncate_short; [reflexivity|].
  unfold test_filenames. rewrite !length_map, length_seq. exact Hm.
Qed.

Lemma test_images_read_in_creation_order_witness :
  Pipeline.prepare (ExtraWorlds.test_env 12) (Worlds.args_with None true) Pipeline.init_st =
    (Pipeline.mk_st [Pipeline.EvMemInfo; Pipeline.EvListdir Worlds.folder] [] None 0,
     Pipeline.Ok (map (path_join Worlds.folder) (test_filenames 12))).
Proof.
  apply (test_images_read_in_creation_order (ExtraWorlds.test_env 12) (Worlds.args_with None true)
           12 (rev (test_filenames 12))).
  - reflexivity.
  - reflexivity.
  - reflexivity.
  - apply Permutation_sym, Permutation_rev.
  - lia.
  - vm_compute. discriminate.
Defined.

End TestImagesFacts.

(* ================================================================== *)
(** ** [create_test_images] under the lexicographic sort *)

Module LexFacts.
Import Order TestImages StrFacts TestImagesFacts.

Lemma code_inj (x y : ascii) : code x = code y -> x = y.
Proof.
  intros H. rewrite <- (ascii_nat_embedding x), <- (ascii_nat_embedding y). unfold code in H. rewrite H. reflexivity.
Qed.

Lemma str_ltb_irrefl (a : pystr) : str_ltb a a = false.
Proof. induction a as [|x a IH]; simpl; [reflexivity|]. rewrite Nat.ltb_irrefl. exact IH. Qed.

Lemma str_ltb_trans (a b c : pystr) : str_ltb a b = true -> str_ltb b c = true -> str_ltb a c = true.
Proof.
  revert b c; induction a as [|x a IH]; intros [|y b] [|z c]; simpl; try congruence.
  destruct (Nat.ltb_spec (code x) (code y)), (Nat.ltb_spec (code y) (code x)),
           (Nat.ltb_spec (code y) (code z)), (Nat.ltb_spec (code z) (code y)),
           (Nat.ltb_spec (code x) (code z)), (Nat.ltb_spec (code z) (code x));
    intros Hab Hbc; try reflexivity; try discriminate; try (exfalso; lia).
  apply (IH b c Hab Hbc).
Qed.

Lemma str_ltb_total (a b : pystr) : str_ltb b a = false -> a = b \/ str_ltb a b = true.
Proof.
  revert b; induction a as [|x a IH]; intros [|y b]; simpl; auto; try discriminate.
  destruct (Nat.ltb_spec (code x) (code y)), (Nat.ltb_spec (code y) (code x)); intros Hba; auto;
    try discriminate; try (exfalso; lia).
  assert (Exy : x = y) by (apply code_inj; lia). subst y.
  destruct (IH b Hba) as [->|Hl]; auto.
Qed.

Lemma str_le_trans (a b c : pystr) :
  str_ltb b a = false -> str_ltb c b = false -> str_ltb c a = false.
Proof.
  intros H1 H2. destruct (str_ltb c a) eqn:E; [|reflexivity]. exfalso.
  destruct (str_ltb_total a b H1) as [Hab|Hab]; destruct (str_ltb_total b c H2) as [Hbc|Hbc].
  - subst. rewrite str_ltb_irrefl in E. discriminate.
  - subst b. rewrite (SortFacts.str_ltb_asym _ _ Hbc) in E. discriminate.
  - subst c. rewrite (SortFacts.str_ltb_asym _ _ Hab) in E. discriminate.
  - rewrite (SortFacts.str_ltb_asym _ _ (str_ltb_trans _ _ _ Hab Hbc)) in E. discriminate.
Qed.

Lemma str_ltb_prefix (pre x y : pystr) : str_ltb (pre ++ x) (pre ++ y) = str_ltb x y.
Proof. induction pre as [|c pre IH]; simpl; [reflexivity|]. rewrite Nat.ltb_irrefl. exact IH. Qed.

Lemma path_join_prefix (a : pystr) :
  exists pre, forall c x, Ascii.eqb c slash = false -> path_join a (c :: x) = pre ++ c :: x.
Proof.
  exists (match rev a with
          | [] => []
          | l :: _ => if Ascii.eqb l slash then a else a ++ [slash]
          end).
  intros c x Hc. unfold path_join. rewrite Hc.
  destruct (rev a) as [|l r]; [reflexivity|].
  destruct (Ascii.eqb l slash); [reflexivity | rewrite <- app_assoc; reflexivity].
Qed.

Lemma join_test_ltb (image_folder : pystr) (i j : nat) :
  str_ltb (path_join image_folder (test_filename i)) (path_join image_folder (test_filename j)) =
  str_ltb (test_filename i) (test_filename j).
Proof.
  destruct (path_join_prefix image_folder) as [pre H].
  assert (Hk : forall k, path_join image_folder (test_filename k) = pre ++ test_filename k).
  { intros k. exact (H "f"%char (lit "rame_" ++ fmt_03d (k + 1) ++ lit ".jpg") eq_refl). }
  rewrite !Hk. apply str_ltb_prefix.
Qed.

Lemma test_adjacent (i : nat) : i < 998 -> str_ltb (test_filename i) (test_filename (S i)) = true.
Proof.
  intros Hi.
  assert (Hall : forallb (fun k => str_ltb (test_filename k) (test_filename (S k))) (seq 0 998) = true)
    by (vm_compute; reflexivity).
  rewrite forallb_forall in Hall. apply Hall. apply in_seq. lia.
Qed.

Lemma sorted_test_names (image_folder : pystr) (s n : nat) :
  s + n <= 999 ->
  Sorted (fun a b => str_ltb a b = true) (map (fun i => path_join image_folder (test_filename i)) (seq s n)).
Proof.
  revert s; induction n as [|n IH]; intros s Hn; cbn [seq map]; [constructor|].
  constructor; [apply IH; lia|]. destruct n; cbn [seq map]; constructor.
  rewrite join_test_ltb. apply test_adjacent. lia.
Qed.

Lemma strongly_sorted_str_unique (l1 l2 : list pystr) :
  StronglySorted (fun a b => str_ltb b a = false) l1 ->
  StronglySorted (fun a b => str_ltb a b = true) l2 ->
  Permutation l1 l2 -> l1 = l2.
Proof.
  revert l2; induction l1 as [|x l1 IH]; intros l2 H1 H2 Hp.
  - symmetry. apply Permutation_nil, Hp.
  - destruct l2 as [|y l2]; [apply Permutation_sym, Permutation_nil in Hp; discriminate|].
    inversion H1 as [|? ? H1' Hx]; subst. inversion H2 as [|? ? H2' Hy]; subst.
    assert (Exy : x = y).
    { assert (Hin1 : In x (y :: l2)) by (apply (Permutation_in x Hp); left; reflexivity).
      assert (Hin2 : In y (x :: l1)) by (apply (Permutation_in y (Permutation_sym Hp)); left; reflexivity).
      destruct Hin1 as [<-|Hin1]; [reflexivity|]. destruct Hin2 as [->|Hin2]; [reflexivity|].
      rewrite Forall_forall in Hx, Hy. specialize (Hx y Hin2). specialize (Hy x Hin1). congruence. }
    subst y. f_equal. apply IH; [exact H1' | exact H2' | apply Permutation_cons_inv with x; exact Hp].
Qed.

Lemma strongly_sorted_app_cons {A : Type} (R : A -> A -> Prop) (l1 l2 : list A) (x : A) :
  StronglySorted R (l1 ++ x :: l2) -> Forall (R x) l2.
Proof.
  induction l1 as [|y l1 IH]; simpl; intros H; inversion H; subst; [assumption | apply IH; assumption].
Qed.

(** Under the lexicographic sort ([--no-sort]), the files of
    [create_test_images(folder, count)], listed in any order, come back
    in creation order exactly when [count <= 999]: the three-digit
    padding stops working at [frame_1000.jpg], which sorts before
    [frame_101.jpg]. *)
Theorem lexicographic_test_images (image_folder : pystr) (count : nat) (names : list pystr) :
  Permutation names (test_filenames count) ->
  (sort_files false (map (path_join image_folder) names) =
     Some (map (path_join image_folder) (test_filenames count)) <-> count <= 999).
Proof.
  intros Hp.
  destruct (SortFacts.str_sort_spec (map (path_join image_folder) names)) as [Hpo Hso].
  assert (Htr : forall x y z : pystr, str_ltb y x = false -> str_ltb z y = false -> str_ltb z x = false)
    by (intros x y z; apply str_le_trans).
  assert (HL : map (path_join image_folder) (test_filenames count) =
               map (fun i => path_join image_folder (test_filename i)) (seq 0 count))
    by (unfold test_filenames; rewrite map_map; reflexivity).
  unfold sort_files. split.
  - intros H. injection H as H. rewrite H, HL in Hso.
    destruct (Nat.le_gt_cases count 999) as [Hc|Hc]; [exact Hc|]. exfalso.
    apply Sorted_StronglySorted in Hso; [|exact Htr].
    replace count with (100 + S (count - 101)) in Hso by lia.
    rewrite seq_app in Hso. simpl (0 + 100) in Hso. cbn [seq] in Hso. rewrite map_app in Hso.
    cbn [map] in Hso. apply strongly_sorted_app_cons in Hso. rewrite Forall_forall in Hso.
    assert (Hin : In (path_join image_folder (test_filename 999))
                     (map (fun i => path_join image_folder (test_filename i)) (seq 101 (count - 101)))).
    { apply in_map_iff. exists 999. split; [reflexivity | apply in_seq; lia]. }
    specialize (Hso _ Hin). rewrite join_test_ltb in Hso.
    assert (Hm : str_ltb (test_filename 999) (test_filename 100) = true) by (vm_compute; reflexivity).
    congruence.
  - intros Hc. f_equal. apply strongly_sorted_str_unique.
    + apply Sorted_StronglySorted; [exact Htr | exact Hso].
    + rewrite HL. apply Sorted_StronglySorted; [intros x y z; apply str_ltb_trans|].
      apply sorted_test_names. lia.
    + rewrite Hpo. apply Permutation_map, Hp.
Qed.

Lemma lexicographic_test_images_witness :
  Permutation (rev (test_filenames 12)) (test_filenames 12) /\
  sort_files false (map (path_join Worlds.folder) (rev (test_filenames 12))) =
    Some (map (path_join Worlds.folder) (test_filenames 12)).
Proof.
  assert (Hp : Permutation (rev (test_filenames 12)) (test_filenames 12))
    by (apply Permutation_sym, Permutation_rev).
  split; [exact Hp|].
  apply (proj2 (lexicographic_test_images Worlds.folder 12 (rev (test_filenames 12)) Hp)). lia.
Defined.

End LexFacts.
